(** * webp-convertor-backend: the upload handler of [src/index.js]

    A shallow embedding of the request handler [app.post("/upload", ...)],
    of the middleware in front of it and of the error handler behind it,
    with the properties the specification states about them.

    Layout:
    - [JSNumber]: the arithmetic of JavaScript numbers that the handler
      uses (division, multiplication, comparison, [Math.round], [parseInt]);
    - [Sharp], [Multer]: the calls made to the two libraries;
    - [Upload]: the handler itself, line by line;
    - the theorems. *)

From stdpp Require Import base option list.
From Stdlib Require Import ZArith QArith Qpower Qround Qabs Lia Lqa.
From Stdlib Require Import String Ascii.
From Stdlib Require Import DecimalString DecimalPos.
From Stdlib Require Floats.SpecFloat.

Local Open Scope Z_scope.

(** ** JavaScript numbers *)

Module JSNumber.

(** A finite IEEE-754 binary64 value is a rational number.  The results of
    [/] and [*] are the exact results rounded to 53 significant bits, ties
    to even ([fl] below).  The exponent range is not bounded here: the model
    agrees with binary64 as long as no intermediate result leaves the normal
    range (magnitudes between 2^-1022 and 2^1024), which holds for every
    quotient and product of integers below 2^500.  The two zeros are
    identified: the handler only ever tests a zero for truthiness. *)

Definition pow2 (e : Z) : Q := (2 ^ e)%Q.

(** [ilog2 x] is the integer [k] with [2^k <= x < 2^(k+1)], for [0 < x]. *)
Definition ilog2 (x : Q) : Z :=
  let k := Z.log2 (Qnum x) - Z.log2 (Zpos (Qden x)) in
  if Qle_bool (pow2 k) x then k else k - 1.

(** Nearest integer, ties to the even one. *)
Definition round_half_even (x : Q) : Z :=
  let f := Qfloor x in
  match Qcompare (x - inject_Z f) (1 # 2) with
  | Lt => f
  | Gt => f + 1
  | Eq => if Z.even f then f else f + 1
  end.

Definition prec : Z := 53.

Definition fl_pos (x : Q) : Q :=
  let e := ilog2 x - (prec - 1) in
  Qred (inject_Z (round_half_even (x / pow2 e)) * pow2 e).

(** Rounding to binary64. *)
Definition fl (x : Q) : Q :=
  match Qcompare x 0 with
  | Eq => 0%Q
  | Gt => fl_pos x
  | Lt => (- fl_pos (- x))%Q
  end.

(** Unit roundoff of binary64. *)
Definition u : Q := pow2 (- prec).

(** [x / y] and [x * y] on numbers. *)
Definition fdiv (x y : Q) : Q := fl (x / y).
Definition fmul (x y : Q) : Q := fl (x * y).

(** [x > y] on numbers. *)
Definition gt (x y : Q) : bool :=
  match Qcompare x y with Gt => true | _ => false end.

(** [Math.round]: the nearest integer, a tie going to the larger one. *)
Definition Math_round (x : Q) : Z := Qfloor (x + (1 # 2)).

(** What [parseInt] and [Math.round] return: an integer or [NaN]. *)
Inductive num : Type :=
  | NaN : num
  | Int : Z -> num.

(** A variable holding [null] or a number. *)
Definition value : Type := option num.

Definition isNaN (n : num) : bool :=
  match n with NaN => true | Int _ => false end.

(** Truthiness of [null], [NaN] and the integers; [truthy v] is the
    integer when [v] is truthy. *)
Definition truthy (v : value) : option Z :=
  match v with
  | Some (Int z) => if z =? 0 then None else Some z
  | _ => None
  end.

Definition is_truthy (v : value) : bool :=
  match truthy v with Some _ => true | None => false end.

(** [n < k] and [n > k] against an integer literal; every comparison with
    [NaN] is false. *)
Definition ltz (n : num) (k : Z) : bool :=
  match n with NaN => false | Int z => z <? k end.
Definition gtz (n : num) (k : Z) : bool :=
  match n with NaN => false | Int z => k <? z end.

(** *** [parseInt(string)], radix omitted

    ECMAScript 19.2.5: leading white space is skipped, then an optional
    sign, then an optional [0x]/[0X] prefix selecting radix 16, then the
    longest run of digits of the radix; [NaN] when that run is empty.
    Strings are sequences of UTF-8 bytes.  The integer is kept exact (the
    engine rounds it to binary64, which changes no integer below 2^53 and
    moves none across the bounds 1, 100 and 5000 it is compared with). *)

Definition byte (c : ascii) : N := N_of_ascii c.

(** Length in bytes of the white space character [s] starts with, or 0:
    TAB, LF, VT, FF, CR, SP, and U+00A0, U+1680, U+2000..U+200A, U+2028,
    U+2029, U+202F, U+205F, U+3000, U+FEFF in UTF-8. *)
Definition white_space (s : string) : nat :=
  match s with
  | String a r =>
      let x := byte a in
      if ((9 <=? x) && (x <=? 13) || (x =? 32))%N then 1%nat
      else match r with
      | String b r' =>
          let y := byte b in
          if ((x =? 194) && (y =? 160))%N then 2%nat
          else match r' with
          | String c _ =>
              let z := byte c in
              if ((x =? 225) && (y =? 154) && (z =? 128))%N then 3%nat
              else if ((x =? 226) && (y =? 128) &&
                       ((128 <=? z) && (z <=? 138) || (z =? 168) || (z =? 169)
                        || (z =? 175)))%N then 3%nat
              else if ((x =? 226) && (y =? 129) && (z =? 159))%N then 3%nat
              else if ((x =? 227) && (y =? 128) && (z =? 128))%N then 3%nat
              else if ((x =? 239) && (y =? 187) && (z =? 191))%N then 3%nat
              else 0%nat
          | EmptyString => 0%nat
          end
      | EmptyString => 0%nat
      end
  | EmptyString => 0%nat
  end.

Fixpoint skip (n : nat) (s : string) : string :=
  match n, s with
  | S n', String _ r => skip n' r
  | _, _ => s
  end.

Fixpoint trim_start (fuel : nat) (s : string) : string :=
  match fuel with
  | O => s
  | S fuel' =>
      match white_space s with
      | O => s
      | n => trim_start fuel' (skip n s)
      end
  end.

Definition digit (radix : Z) (c : ascii) : option Z :=
  let x := Z.of_N (byte c) in
  let d := if (48 <=? x) && (x <=? 57) then Some (x - 48)
           else if (97 <=? x) && (x <=? 122) then Some (x - 87)
           else if (65 <=? x) && (x <=? 90) then Some (x - 55)
           else None in
  match d with
  | Some v => if v <? radix then Some v else None
  | None => None
  end.

(** The longest run of digits, read left to right: [None] when empty. *)
Fixpoint digits (radix : Z) (acc : option Z) (s : string) : option Z :=
  match s with
  | String c r =>
      match digit radix c with
      | Some v =>
          digits radix (Some (radix * match acc with Some a => a | None => 0 end + v)) r
      | None => acc
      end
  | EmptyString => acc
  end.

Definition parseInt (input : string) : num :=
  let s := trim_start (String.length input) input in
  let '(sign, s) :=
    match s with
    | String "-" r => (-1, r)
    | String "+" r => (1, r)
    | _ => (1, s)
    end in
  let '(radix, s) :=
    match s with
    | String "0" (String "x" r) => (16, r)
    | String "0" (String "X" r) => (16, r)
    | _ => (10, s)
    end in
  match digits radix None s with
  | Some n => Int (sign * n)
  | None => NaN
  end.

(** Number to string, for the integers a template literal prints in
    plain decimal (magnitude below 10^21). *)
Definition toString (z : Z) : string :=
  NilZero.string_of_int (Z.to_int z).

End JSNumber.

Import JSNumber.
Local Open Scope string_scope.
Local Open Scope Z_scope.

(** ** The image library

    What the handler asks of [sharp], per source file: the metadata of the
    input, then one pipeline [resize?] / [webp({quality})] / [toFile]. *)

Module Sharp.

Record Metadata : Type := { width : positive; height : positive }.

(** One pipeline run to completion.  [resize = None]: [image.resize] was
    not called; [Some (w, h)]: it was called with these arguments, [None]
    standing for [null]. *)
Record Job : Type := {
  input : string;
  resize : option (option Z * option Z);
  webp_quality : num;
  output : string
}.

End Sharp.

(** ** The upload middleware

    [multer({ storage, fileFilter, limits: { files: 20 } })] and its
    [.array("images", 20)], as the library documents them: the file parts
    of a multipart body are taken in order; a part beyond the [files] limit
    aborts with [LIMIT_FILE_COUNT], a part whose field has no count left
    with [LIMIT_UNEXPECTED_FILE], a part the file filter refuses with the
    filter's error; the files accepted so far become [req.files].  A body
    that is not multipart is passed on untouched ([req.files] undefined).
    The name and place the disk storage gives a file (lines 26-32) come
    with the part. *)

Module Multer.

Record File : Type := {
  fieldname : string;
  originalname : string;
  mimetype : string;
  path : string
}.

Inductive Error : Type :=
  | LIMIT_FILE_COUNT
  | LIMIT_UNEXPECTED_FILE
  | FilterError (message : string).

Definition message (e : Error) : string :=
  match e with
  | LIMIT_FILE_COUNT => "Too many files"
  | LIMIT_UNEXPECTED_FILE => "Unexpected field"
  | FilterError m => m
  end.

(** [fileFilter] of lines 34-40: [None] accepts the file. *)
Definition fileFilter (file : File) : option Error :=
  if String.prefix "image/" (mimetype file) then None
  else Some (FilterError "Only image files are allowed").

Fixpoint accept (name : string) (limit filesLeft : nat) (parts : list File)
  {struct parts} : Error + list File :=
  match parts with
  | [] => inr []
  | file :: rest =>
      match limit with
      | O => inl LIMIT_FILE_COUNT
      | S limit' =>
          if String.eqb (fieldname file) name then
            match filesLeft with
            | O => inl LIMIT_UNEXPECTED_FILE
            | S left' =>
                match fileFilter file with
                | Some err => inl err
                | None =>
                    match accept name limit' left' rest with
                    | inl err => inl err
                    | inr files => inr (file :: files)
                    end
                end
            end
          else inl LIMIT_UNEXPECTED_FILE
      end
  end.

(** [upload.array(name, maxCount)] under [limits.files]: the error handed
    to [next], or [req.files]. *)
Definition array (files_limit : nat) (name : string) (maxCount : nat)
    (body : option (list File)) : Error + option (list File) :=
  match body with
  | None => inr None
  | Some parts =>
      match accept name files_limit maxCount parts with
      | inl err => inl err
      | inr files => inr (Some files)
      end
  end.

End Multer.

(** ** The application *)

Module Upload.

Record Query : Type := {
  q_width : option string;
  q_height : option string;
  q_quality : option string;
  q_maintainAspectRatio : option string
}.

Record Request : Type := {
  query : Query;
  files : option (list Multer.File)
}.

Inductive Body : Type :=
  | urls_body (urls : list string)
  | error_body (error : string).

Record Response : Type := { status : Z; json : Body }.

(** Everything outside the handler that its run depends on.  [Date_now i]
    and [Math_random i] are the results of the [i]-th call the handler
    makes (one of each per file); [metadata p = None] and
    [toFile j = false] are a rejected promise (or an exception thrown on
    the way to it). *)
Record World : Type := {
  dirname : string;
  Date_now : nat -> Z;
  Math_random : nat -> Q;
  metadata : string -> option Sharp.Metadata;
  toFile : Sharp.Job -> bool
}.

Definition outputDir (W : World) : string := dirname W ++ "/public/images".

(** [q ? parseInt(q) : ...] of lines 53-55: the parsed parameter, or
    [None] for the other branch; an absent parameter and the empty string
    are falsy. *)
Definition parsed (q : option string) : option num :=
  match q with
  | Some (String c r) => Some (parseInt (String c r))
  | _ => None
  end.

(** [v && (v < 1 || v > 5000)] of lines 60-61, as a condition. *)
Definition out_of_range (v : value) : bool :=
  match truthy v with
  | Some z => (z <? 1) || (5000 <? z)
  | None => false
  end.

(** The condition of lines 59-65. *)
Definition invalid (width height : value) (quality : num) : bool :=
  out_of_range width || out_of_range height
  || isNaN quality || ltz quality 1 || gtz quality 100.

(** Lines 94-112: the target width and height for one image. *)
Definition resizePlan (maintainAspectRatio : bool) (width height : value)
    (originalWidth originalHeight : positive) : value * value :=
  let targetWidth := width in
  let targetHeight := height in
  if maintainAspectRatio then
    let aspectRatio :=
      fdiv (inject_Z (Zpos originalWidth)) (inject_Z (Zpos originalHeight)) in
    match truthy width, truthy height with
    | Some w, Some h =>
        if gt (fdiv (inject_Z w) (inject_Z h)) aspectRatio
        then (Some (Int (Math_round (fmul (inject_Z h) aspectRatio))), targetHeight)
        else (targetWidth, Some (Int (Math_round (fdiv (inject_Z w) aspectRatio))))
    | Some w, None =>
        (targetWidth, Some (Int (Math_round (fdiv (inject_Z w) aspectRatio))))
    | None, Some h =>
        (Some (Int (Math_round (fmul (inject_Z h) aspectRatio))), targetHeight)
    | None, None => (targetWidth, targetHeight)
    end
  else (targetWidth, targetHeight).

(** Lines 114-116: the arguments [image.resize] is called with, if it is
    called; [v || null] is [truthy v]. *)
Definition resizeStep (plan : value * value) : option (option Z * option Z) :=
  let '(targetWidth, targetHeight) := plan in
  if is_truthy targetWidth || is_truthy targetHeight
  then Some (truthy targetWidth, truthy targetHeight)
  else None.

(** Lines 83-85. *)
Definition outputFilename (W : World) (i : nat) : string :=
  toString (Date_now W i) ++ "-"
  ++ toString (Math_round (fmul (Math_random W i) (inject_Z 100000)))
  ++ ".webp".

(** Lines 120-122. *)
Definition publicUrl (filename : string) : string :=
  "https://webp-convertor-backend.onrender.com/images/" ++ filename.

(** The pipeline of lines 82-118 for the [i]-th file, once its metadata is
    read. *)
Definition job (W : World) (width height : value) (quality : num)
    (maintainAspectRatio : bool) (i : nat) (file : Multer.File)
    (md : Sharp.Metadata) : Sharp.Job :=
  {| Sharp.input := Multer.path file;
     Sharp.resize :=
       resizeStep (resizePlan maintainAspectRatio width height
                     (Sharp.width md) (Sharp.height md));
     Sharp.webp_quality := quality;
     Sharp.output := outputDir W ++ "/" ++ outputFilename W i |}.

(** The loop of lines 81-123 from its [i]-th iteration on.  [urls] is the
    array built so far, [written] the pipelines completed so far; the
    result is the array at the end of the loop, or [None] when an
    exception left the loop, with everything written by then. *)
Fixpoint convert (W : World) (width height : value) (quality : num)
    (maintainAspectRatio : bool) (i : nat) (files : list Multer.File)
    (urls : list string) (written : list Sharp.Job)
  : option (list string) * list Sharp.Job :=
  match files with
  | [] => (Some urls, written)
  | file :: rest =>
      match metadata W (Multer.path file) with
      | None => (None, written)
      | Some md =>
          let j := job W width height quality maintainAspectRatio i file md in
          if toFile W j
          then convert W width height quality maintainAspectRatio (S i) rest
                 (urls ++ [publicUrl (outputFilename W i)])%list
                 (written ++ [j])%list
          else (None, written)
      end
  end.

Definition respond (status : Z) (json : Body) : Response :=
  {| status := status; json := json |}.

(** Lines 53-56. *)
Definition width_of (req : Request) : value := parsed (q_width (query req)).
Definition height_of (req : Request) : value := parsed (q_height (query req)).
Definition quality_of (req : Request) : num :=
  default (Int 80) (parsed (q_quality (query req))).
Definition maintainAspectRatio_of (req : Request) : bool :=
  match q_maintainAspectRatio (query req) with
  | Some s => String.eqb s "true"
  | None => false
  end.

(** Lines 51-130: the response and the pipelines run to completion. *)
Definition handler (W : World) (req : Request) : Response * list Sharp.Job :=
  let width := width_of req in
  let height := height_of req in
  let quality := quality_of req in
  let maintainAspectRatio := maintainAspectRatio_of req in
  if invalid width height quality then
    (respond 400 (error_body "Invalid width, height, or quality"), [])
  else
    match files req with
    | None | Some [] => (respond 400 (error_body "No images provided"), [])
    | Some fs =>
        if (20 <? List.length fs)%nat then
          (respond 400 (error_body "Maximum 20 images allowed"), [])
        else
          match convert W width height quality maintainAspectRatio 0 fs [] [] with
          | (Some urls, written) => (respond 200 (urls_body urls), written)
          | (None, written) =>
              (respond 500 (error_body "Image conversion failed"), written)
          end
    end.

(** Lines 133-140. *)
Definition errorHandler (err : Multer.Error) : Response :=
  if String.eqb (Multer.message err) "Only image files are allowed"
  then respond 400 (error_body (Multer.message err))
  else respond 500 (error_body "Internal server error").

(** [upload] of lines 42-48. *)
Definition upload (name : string) (maxCount : nat)
    (body : option (list Multer.File)) : Multer.Error + option (list Multer.File) :=
  Multer.array 20 name maxCount body.

(** [POST /upload]: the middleware, then the handler or the error
    handler. *)
Definition post_upload (W : World) (q : Query) (body : option (list Multer.File))
  : Response * list Sharp.Job :=
  match upload "images" 20 body with
  | inl err => (errorHandler err, [])
  | inr fs => handler W {| query := q; files := fs |}
  end.

End Upload.

Import Upload.

(** ** Vocabulary of the statements *)

(** The [i]-th file of a batch goes through its pipeline without an
    exception. *)
Definition processes (W : World) (width height : value) (quality : num)
    (maintainAspectRatio : bool) (i : nat) (file : Multer.File) : bool :=
  match metadata W (Multer.path file) with
  | Some md => toFile W (job W width height quality maintainAspectRatio i file md)
  | None => false
  end.

(** A file part of the field [images] with an image MIME type. *)
Definition image_part (file : Multer.File) : Prop :=
  Multer.fieldname file = "images"
  /\ String.prefix "image/" (Multer.mimetype file) = true.

Definition set_width (w : option string) (req : Request) : Request :=
  {| query := {| q_width := w;
                 q_height := q_height (query req);
                 q_quality := q_quality (query req);
                 q_maintainAspectRatio := q_maintainAspectRatio (query req) |};
     files := files req |}.

Definition set_height (h : option string) (req : Request) : Request :=
  {| query := {| q_width := q_width (query req);
                 q_height := h;
                 q_quality := q_quality (query req);
                 q_maintainAspectRatio := q_maintainAspectRatio (query req) |};
     files := files req |}.

Definition set_quality (q : option string) (req : Request) : Request :=
  {| query := {| q_width := q_width (query req);
                 q_height := q_height (query req);
                 q_quality := q;
                 q_maintainAspectRatio := q_maintainAspectRatio (query req) |};
     files := files req |}.

(** [round(width * originalHeight / originalWidth)] in exact arithmetic,
    for comparison with what the handler computes. *)
Definition exact_height (width : Z) (originalWidth originalHeight : positive) : Z :=
  Math_round (inject_Z width * inject_Z (Zpos originalHeight)
              / inject_Z (Zpos originalWidth)).

(** *** Sample data *)

Module Sample.

Definition png (name : string) : Multer.File :=
  {| Multer.fieldname := "images";
     Multer.originalname := name ++ ".png";
     Multer.mimetype := "image/png";
     Multer.path := "/srv/uploads/" ++ name |}.

(** A world in which every image is 1920 x 1080 and every pipeline runs,
    but for the upload called [broken]. *)
Definition world : World :=
  {| dirname := "/srv";
     Date_now := fun i => 1700000000000 + Z.of_nat i;
     Math_random := fun _ => (1 # 4)%Q;
     metadata := fun p =>
       if String.eqb p "/srv/uploads/broken" then None
       else Some {| Sharp.width := 1920; Sharp.height := 1080 |};
     toFile := fun _ => true |}.

Definition request (w h q m : option string) (fs : list Multer.File) : Request :=
  {| query := {| q_width := w; q_height := h; q_quality := q;
                 q_maintainAspectRatio := m |};
     files := Some fs |}.

End Sample.

(** *** binary64 as the Standard Library specifies it

    [SpecFloat] is the executable specification that the primitive floats
    of Rocq are checked against; it is used here on sample operands, to
    compare [fdiv] and [fmul] with. *)

Module Binary64.

Import SpecFloat.

Definition of_Z (z : Z) : spec_float := binary_normalize 53 1024 z 0 false.

Definition div (x y : spec_float) : spec_float := SFdiv 53 1024 x y.
Definition mul (x y : spec_float) : spec_float := SFmul 53 1024 x y.

Definition to_Q (x : spec_float) : option Q :=
  match x with
  | S754_zero _ => Some 0%Q
  | S754_finite s m e =>
      Some (Qred ((if s then -1 else 1) * inject_Z (Zpos m) * pow2 e))%Q
  | _ => None
  end.

End Binary64.

(** *** The rounding of the specification

    Section 4.2 of the specification: the quotient and the product are taken
    in the reals and rounded to the nearest integer, a tie going away from
    zero.  These definitions follow those words, in exact rational
    arithmetic, to be compared with what the handler computes. *)

Definition spec_round (x : Q) : Z :=
  if Qle_bool 0 x then Qfloor (x + (1 # 2)) else - Qfloor (- x + (1 # 2)).

Definition spec_height_for_width (width : Z)
    (originalWidth originalHeight : positive) : Z :=
  spec_round (inject_Z width
              / (inject_Z (Zpos originalWidth) / inject_Z (Zpos originalHeight))).

Definition spec_width_for_height (height : Z)
    (originalWidth originalHeight : positive) : Z :=
  spec_round (inject_Z height
              * (inject_Z (Zpos originalWidth) / inject_Z (Zpos originalHeight))).

(** [t] is the integer nearest to [x], the larger one at a tie. *)
Definition nearest (t : Z) (x : Q) : Prop :=
  (inject_Z t - (1 # 2) <= x /\ x < inject_Z t + (1 # 2))%Q.

(** [x] rounds to [n] and is at least [margin] away from both ties next to
    it. *)
Definition clear_of_tie (x : Q) (n : Z) (margin : Q) : Prop :=
  (inject_Z n - (1 # 2) + margin <= x /\ x < inject_Z n + (1 # 2) - margin)%Q.

(** *** Vocabulary of the further properties *)

(** A dimension the validation lets through: falsy, or an integer from 1
    to 5000. *)
Definition acceptable (v : value) : Prop :=
  truthy v = None \/ exists z, v = Some (Int z) /\ 1 <= z <= 5000.

(** What may follow a decimal number without changing what [parseInt]
    reads: nothing, or text that starts with neither a decimal digit nor
    [x] or [X]. *)
Definition plain_suffix (t : string) : bool :=
  match t with
  | EmptyString => true
  | String c _ =>
      match digit 10 c with
      | Some _ => false
      | None => negb (Ascii.eqb c "x" || Ascii.eqb c "X")
      end
  end.

Definition starts_with_x (s : string) : bool :=
  match s with
  | String c _ => Ascii.eqb c "x" || Ascii.eqb c "X"
  | EmptyString => false
  end.

(** The number a run of decimal digits stands for, read after [acc]. *)
Fixpoint uint_value (acc : Z) (d : Decimal.uint) : Z :=
  match d with
  | Decimal.Nil => acc
  | Decimal.D0 d' => uint_value (10 * acc + 0) d'
  | Decimal.D1 d' => uint_value (10 * acc + 1) d'
  | Decimal.D2 d' => uint_value (10 * acc + 2) d'
  | Decimal.D3 d' => uint_value (10 * acc + 3) d'
  | Decimal.D4 d' => uint_value (10 * acc + 4) d'
  | Decimal.D5 d' => uint_value (10 * acc + 5) d'
  | Decimal.D6 d' => uint_value (10 * acc + 6) d'
  | Decimal.D7 d' => uint_value (10 * acc + 7) d'
  | Decimal.D8 d' => uint_value (10 * acc + 8) d'
  | Decimal.D9 d' => uint_value (10 * acc + 9) d'
  end.

(** A [resize] call that [sharp] accepts: not both arguments [null], and
    each given one at least 1. *)
Definition positive_resize (j : Sharp.Job) : Prop :=
  match Sharp.resize j with
  | None => True
  | Some (a, b) =>
      (a <> None \/ b <> None)
      /\ (forall z, a = Some z -> 1 <= z)
      /\ (forall z, b = Some z -> 1 <= z)
  end.

Definition set_maintainAspectRatio (m : option string) (req : Request) : Request :=
  {| query := {| q_width := q_width (query req);
                 q_height := q_height (query req);
                 q_quality := q_quality (query req);
                 q_maintainAspectRatio := m |};
     files := files req |}.

(** The number after the dash in the [i]-th output file name. *)
Definition random_suffix (W : World) (i : nat) : Z :=
  Math_round (fmul (Math_random W i) (inject_Z 100000)).

(** ** The rounding error of [fl] *)

Section Rounding.

Local Open Scope Q_scope.

Lemma pow2_pos e : 0 < pow2 e.
Proof. unfold pow2. apply Qpower_0_lt. reflexivity. Qed.

Lemma pow2_add a b : pow2 (a + b) == pow2 a * pow2 b.
Proof. unfold pow2. apply Qpower_plus. discriminate. Qed.

Lemma pow2_inject (a : Z) : (0 <= a)%Z -> pow2 a == inject_Z (2 ^ a).
Proof.
  intros Ha. unfold pow2. symmetry.
  rewrite Zpower_Qpower by assumption. reflexivity.
Qed.

Lemma pow2_1 : pow2 1 == 2.
Proof. reflexivity. Qed.

Lemma pow2_m1 : pow2 (-1) == 1 # 2.
Proof. reflexivity. Qed.

(** [ilog2] never overshoots. *)
Lemma ilog2_le x : 0 < x -> pow2 (ilog2 x) <= x.
Proof.
  intros Hx. unfold ilog2.
  set (k := (Z.log2 (Qnum x) - Z.log2 (Z.pos (Qden x)))%Z).
  destruct (Qle_bool (pow2 k) x) eqn:E.
  - now apply Qle_bool_iff.
  - clear E. destruct x as [n d]. unfold Qlt in Hx. cbn [Qnum Qden] in Hx, k.
    assert (Hn : (0 < n)%Z) by lia.
    destruct (Z.log2_spec n Hn) as [Hn1 _].
    destruct (Z.log2_spec (Z.pos d) (Pos2Z.is_pos d)) as [_ Hd2].
    pose proof (Z.log2_nonneg n) as Ha.
    pose proof (Z.log2_nonneg (Z.pos d)) as Hb.
    set (a := Z.log2 n) in *. set (b := Z.log2 (Z.pos d)) in *.
    assert (Hk : pow2 (k - 1) * pow2 (Z.succ b) == pow2 a).
    { rewrite <- pow2_add. replace (k - 1 + Z.succ b)%Z with a by (unfold k; lia).
      reflexivity. }
    rewrite (pow2_inject a Ha), (pow2_inject (Z.succ b)) in Hk by lia.
    assert (Hdq : inject_Z (Z.pos d) <= inject_Z (2 ^ Z.succ b)).
    { rewrite <- Zle_Qle. lia. }
    assert (Hnq : inject_Z (2 ^ a) <= inject_Z n).
    { rewrite <- Zle_Qle. lia. }
    assert (Hx' : n # d == inject_Z n / inject_Z (Z.pos d)) by apply Qmake_Qdiv.
    rewrite Hx'. apply Qle_shift_div_l.
    + change 0 with (inject_Z 0). rewrite <- Zlt_Qlt. lia.
    + apply Qle_trans with (pow2 (k - 1) * inject_Z (2 ^ Z.succ b)).
      * apply Qmult_le_l; [apply pow2_pos | assumption].
      * rewrite Hk. assumption.
Qed.

Lemma ilog2_lt x : 0 < x -> x < pow2 (ilog2 x + 1).
Proof.
  intros Hx. unfold ilog2.
  set (k := (Z.log2 (Qnum x) - Z.log2 (Z.pos (Qden x)))%Z).
  destruct (Qle_bool (pow2 k) x) eqn:E.
  - clear E. destruct x as [n d]. unfold Qlt in Hx. cbn [Qnum Qden] in Hx, k.
    assert (Hn : (0 < n)%Z) by lia.
    destruct (Z.log2_spec n Hn) as [_ Hn2].
    destruct (Z.log2_spec (Z.pos d) (Pos2Z.is_pos d)) as [Hd1 _].
    pose proof (Z.log2_nonneg n) as Ha.
    pose proof (Z.log2_nonneg (Z.pos d)) as Hb.
    set (a := Z.log2 n) in *. set (b := Z.log2 (Z.pos d)) in *.
    assert (Hk : pow2 (k + 1) * pow2 b == pow2 (Z.succ a)).
    { rewrite <- pow2_add. replace (k + 1 + b)%Z with (Z.succ a) by (unfold k; lia).
      reflexivity. }
    rewrite (pow2_inject (Z.succ a)), (pow2_inject b) in Hk by lia.
    assert (Hdq : inject_Z (2 ^ b) <= inject_Z (Z.pos d)).
    { rewrite <- Zle_Qle. lia. }
    assert (Hnq : inject_Z n < inject_Z (2 ^ Z.succ a)).
    { rewrite <- Zlt_Qlt. lia. }
    assert (Hx' : n # d == inject_Z n / inject_Z (Z.pos d)) by apply Qmake_Qdiv.
    rewrite Hx'. apply Qlt_shift_div_r.
    + change 0 with (inject_Z 0). rewrite <- Zlt_Qlt. lia.
    + apply Qlt_le_trans with (pow2 (k + 1) * inject_Z (2 ^ b)).
      * rewrite Hk. assumption.
      * apply Qmult_le_l; [apply pow2_pos | assumption].
  - replace (k - 1 + 1)%Z with k by lia.
    apply Qnot_le_lt. intros Hle. apply Qle_bool_iff in Hle. congruence.
Qed.

Lemma round_half_even_err y :
  inject_Z (round_half_even y) - y <= 1 # 2 /\
  y - inject_Z (round_half_even y) <= 1 # 2.
Proof.
  unfold round_half_even.
  pose proof (Qfloor_le y) as H1. pose proof (Qlt_floor y) as H2.
  rewrite inject_Z_plus in H2. change (inject_Z 1) with 1 in H2.
  set (f := Qfloor y) in *.
  destruct (Qcompare (y - inject_Z f) (1 # 2)) eqn:E.
  - apply Qeq_alt in E. destruct (Z.even f);
      rewrite ?inject_Z_plus; change (inject_Z 1) with 1; split; lra.
  - apply Qlt_alt in E. split; lra.
  - apply Qgt_alt in E. rewrite inject_Z_plus. change (inject_Z 1) with 1.
    split; lra.
Qed.

Lemma fl_pos_err x :
  0 < x -> x - x * u <= fl_pos x /\ fl_pos x <= x + x * u.
Proof.
  intros Hx. unfold fl_pos. rewrite Qred_correct.
  set (e := (ilog2 x - (prec - 1))%Z).
  pose proof (pow2_pos e) as He.
  pose proof (round_half_even_err (x / pow2 e)) as [Hm1 Hm2].
  set (m := inject_Z (round_half_even (x / pow2 e))) in *.
  assert (Hxe : x == x / pow2 e * pow2 e).
  { field. intros H0. rewrite H0 in He. now apply Qlt_irrefl in He. }
  assert (Hhalf : (1 # 2) * pow2 e <= x * u).
  { pose proof (ilog2_le x Hx) as Hl.
    assert (Hsplit : pow2 (ilog2 x) * u == (1 # 2) * pow2 e).
    { unfold u. rewrite <- pow2_add. rewrite <- pow2_m1, <- pow2_add.
      assert (Hz : (ilog2 x + - prec = -1 + e)%Z) by (unfold e, prec; lia).
      rewrite Hz. reflexivity. }
    rewrite <- Hsplit. apply Qmult_le_compat_r; [assumption |].
    apply Qlt_le_weak, pow2_pos. }
  assert (Ha : (m - x / pow2 e) * pow2 e <= (1 # 2) * pow2 e).
  { apply Qmult_le_compat_r; [assumption | now apply Qlt_le_weak]. }
  assert (Hb : (x / pow2 e - m) * pow2 e <= (1 # 2) * pow2 e).
  { apply Qmult_le_compat_r; [assumption | now apply Qlt_le_weak]. }
  set (y := x / pow2 e) in *. set (p := pow2 e) in *.
  assert (Hd1 : (m - y) * p == m * p - y * p) by ring.
  assert (Hd2 : (y - m) * p == y * p - m * p) by ring.
  rewrite Hd1 in Ha. rewrite Hd2 in Hb. rewrite <- Hxe in Ha, Hb.
  split; lra.
Qed.

(** [fl_pos] keeps 53 significant bits: the integer it scales is between
    2^52 and 2^53. *)
Lemma fl_pos_mantissa x :
  0 < x ->
  (2 ^ 52 <= round_half_even (x / pow2 (ilog2 x - (prec - 1))) <= 2 ^ 53)%Z.
Proof.
  intros Hx.
  set (e := (ilog2 x - (prec - 1))%Z).
  pose proof (pow2_pos e) as He.
  pose proof (ilog2_le x Hx) as Hlo. pose proof (ilog2_lt x Hx) as Hhi.
  assert (E1 : pow2 (ilog2 x) == pow2 52 * pow2 e).
  { rewrite <- pow2_add. replace (52 + e)%Z with (ilog2 x) by (unfold e, prec; lia).
    reflexivity. }
  assert (E2 : pow2 (ilog2 x + 1) == pow2 53 * pow2 e).
  { rewrite <- pow2_add. replace (53 + e)%Z with (ilog2 x + 1)%Z by (unfold e, prec; lia).
    reflexivity. }
  rewrite E1 in Hlo. rewrite E2 in Hhi.
  assert (Hy1 : pow2 52 <= x / pow2 e) by now apply Qle_shift_div_l.
  assert (Hy2 : x / pow2 e < pow2 53) by now apply Qlt_shift_div_r.
  set (y := x / pow2 e) in *.
  rewrite (pow2_inject 52) in Hy1 by lia. rewrite (pow2_inject 53) in Hy2 by lia.
  pose proof (Qfloor_le y) as F1. pose proof (Qlt_floor y) as F2.
  assert (G1 : (2 ^ 52 <= Qfloor y)%Z).
  { assert (H : inject_Z (2 ^ 52) < inject_Z (Qfloor y + 1))
      by (eapply Qle_lt_trans; eassumption).
    rewrite <- Zlt_Qlt in H. lia. }
  assert (G2 : (Qfloor y < 2 ^ 53)%Z).
  { assert (H : inject_Z (Qfloor y) < inject_Z (2 ^ 53))
      by (eapply Qle_lt_trans; eassumption).
    now rewrite <- Zlt_Qlt in H. }
  unfold round_half_even. fold y.
  destruct (Qcompare _ _); [destruct (Z.even _) | |]; lia.
Qed.

Lemma fl_err x :
  0 < x -> x - x * u <= fl x /\ fl x <= x + x * u.
Proof.
  intros Hx. unfold fl.
  assert (E : Qcompare x 0 = Gt) by now apply Qgt_alt.
  rewrite E. now apply fl_pos_err.
Qed.

End Rounding.

(** ** Arithmetic of the resize plan *)

Section PlanArithmetic.

Local Open Scope Q_scope.

Lemma u_value : u == 1 # 9007199254740992.
Proof. reflexivity. Qed.

Lemma Math_round_bounds x :
  inject_Z (Math_round x) <= x + (1 # 2) /\ x - (1 # 2) < inject_Z (Math_round x).
Proof.
  unfold Math_round.
  pose proof (Qfloor_le (x + (1 # 2))) as H1.
  pose proof (Qlt_floor (x + (1 # 2))) as H2.
  rewrite inject_Z_plus in H2. change (inject_Z 1) with 1 in H2.
  split; lra.
Qed.

Lemma Math_round_le x (n : Z) :
  x < inject_Z n + (1 # 2) -> (Math_round x <= n)%Z.
Proof.
  intros Hx. destruct (Math_round_bounds x) as [H1 _].
  assert (H : inject_Z (Math_round x) < inject_Z (n + 1)).
  { rewrite inject_Z_plus. change (inject_Z 1) with 1. lra. }
  rewrite <- Zlt_Qlt in H. lia.
Qed.

Lemma Math_round_nonneg x : 0 <= x -> (0 <= Math_round x)%Z.
Proof.
  intros Hx. destruct (Math_round_bounds x) as [_ H2].
  assert (H : inject_Z (-1) < inject_Z (Math_round x)).
  { change (inject_Z (-1)) with (-1 # 1). lra. }
  rewrite <- Zlt_Qlt in H. lia.
Qed.

Lemma fl_positive x : 0 < x -> 0 < fl x.
Proof.
  intros Hx. destruct (fl_err x Hx) as [H1 _].
  rewrite u_value in H1. lra.
Qed.

Lemma inject_pos (p : positive) : 0 < inject_Z (Zpos p).
Proof. change 0 with (inject_Z 0). rewrite <- Zlt_Qlt. lia. Qed.

Lemma gt_true x y : gt x y = true -> y < x.
Proof.
  unfold gt. destruct (Qcompare x y) eqn:E; try discriminate.
  intros _. now apply Qgt_alt.
Qed.

Lemma gt_false x y : gt x y = false -> x <= y.
Proof.
  unfold gt. destruct (Qcompare x y) eqn:E; try discriminate; intros _.
  - apply Qeq_alt in E. rewrite E. apply Qle_refl.
  - apply Qlt_alt in E. now apply Qlt_le_weak.
Qed.

(** The width recomputed from the height: it fits the box and is the exact
    proportional width up to a pixel. *)
Lemma recomputed_width (R W H : Q) :
  0 < R -> 1 <= W -> W <= 5000 -> 1 <= H -> H <= 5000 ->
  gt (fdiv W H) (fl R) = true ->
  let x := fmul H (fl R) in
  0 < x /\ x < W + (1 # 2) /\ Qabs (inject_Z (Math_round x) - H * R) <= 1.
Proof.
  intros HR HW1 HW2 HH1 HH2 Hgt x.
  apply gt_true in Hgt. unfold fdiv in Hgt.
  assert (HWH : 0 < W / H) by (apply Qlt_shift_div_l; lra).
  destruct (fl_err R HR) as [Ha1 Ha2].
  destruct (fl_err (W / H) HWH) as [_ Hq2].
  pose proof (fl_positive R HR) as Har.
  set (ar := fl R) in *. set (q := fl (W / H)) in *.
  assert (Hprod : 0 < H * ar) by (apply Qmult_lt_0_compat; lra).
  destruct (fl_err (H * ar) Hprod) as [Hx1 Hx2].
  fold (fmul H ar) in Hx1, Hx2. fold x in Hx1, Hx2.
  assert (E1 : H * (W / H + W / H * u) == W + W * u) by (field; lra).
  assert (E2 : H * (R - R * u) == H * R - H * R * u) by ring.
  assert (E3 : H * (R + R * u) == H * R + H * R * u) by ring.
  assert (B1 : H * ar < H * q) by (apply Qmult_lt_l; lra).
  assert (B2 : H * q <= H * (W / H + W / H * u)) by (apply Qmult_le_l; lra).
  assert (B3 : H * (R - R * u) <= H * ar) by (apply Qmult_le_l; lra).
  assert (B4 : H * ar <= H * (R + R * u)) by (apply Qmult_le_l; lra).
  rewrite E1 in B2. rewrite E2 in B3. rewrite E3 in B4.
  set (a := H * ar) in *. set (c := H * R) in *.
  rewrite u_value in *.
  destruct (Math_round_bounds x) as [Hr1 Hr2].
  repeat split; try lra.
  apply Qabs_case; intros _; lra.
Qed.

(** The height recomputed from the width, likewise. *)
Lemma recomputed_height (R W H : Q) :
  0 < R -> 1 <= W -> W <= 5000 -> 1 <= H -> H <= 5000 ->
  gt (fdiv W H) (fl R) = false ->
  let x := fdiv W (fl R) in
  0 < x /\ x < H + (1 # 2) /\ Qabs (inject_Z (Math_round x) - W / R) <= 1.
Proof.
  intros HR HW1 HW2 HH1 HH2 Hgt x.
  apply gt_false in Hgt. unfold fdiv in Hgt.
  assert (HWH : 0 < W / H) by (apply Qlt_shift_div_l; lra).
  destruct (fl_err R HR) as [Ha1 Ha2].
  destruct (fl_err (W / H) HWH) as [Hq1 _].
  pose proof (fl_positive R HR) as Har.
  set (ar := fl R) in *. set (q := fl (W / H)) in *.
  assert (Hb : 0 < W / ar) by (apply Qlt_shift_div_l; lra).
  destruct (fl_err (W / ar) Hb) as [Hx1 Hx2].
  fold (fdiv W ar) in Hx1, Hx2. fold x in Hx1, Hx2.
  assert (Hd : 0 < W / R) by (apply Qlt_shift_div_l; lra).
  set (b := W / ar) in *. set (d := W / R) in *.
  assert (Eb : b * ar == W) by (unfold b; field; lra).
  assert (Ed : d * R == W) by (unfold d; field; lra).
  assert (E1 : H * (W / H - W / H * u) == W - W * u) by (field; lra).
  assert (B1 : H * (W / H - W / H * u) <= H * ar).
  { apply Qmult_le_l; lra. }
  rewrite E1 in B1.
  (* b (1 - u) <= H *)
  assert (B2 : b - b * u <= H).
  { apply Qmult_le_r with ar; [assumption |].
    assert (E : (b - b * u) * ar == b * ar - b * ar * u) by ring.
    rewrite E, Eb. rewrite (Qmult_comm H ar) in B1. rewrite Qmult_comm. lra. }
  (* d between b (1 - u) and b (1 + u) *)
  assert (B3 : b - b * u <= d).
  { apply Qmult_le_r with R; [assumption |].
    rewrite Ed.
    assert (E : (b - b * u) * R == b * (R - R * u)) by ring.
    rewrite E, <- Eb. apply Qmult_le_l; lra. }
  assert (B4 : d <= b + b * u).
  { apply Qmult_le_r with R; [assumption |].
    rewrite Ed.
    assert (E : (b + b * u) * R == b * (R + R * u)) by ring.
    rewrite E, <- Eb. apply Qmult_le_l; lra. }
  rewrite u_value in *.
  destruct (Math_round_bounds x) as [Hr1 Hr2].
  repeat split; try lra.
  apply Qabs_case; intros _; lra.
Qed.

End PlanArithmetic.

(** ** The resize plan *)

Lemma truthy_Int (z : Z) : z <> 0 -> truthy (Some (Int z)) = Some z.
Proof. intros Hz. simpl. destruct (Z.eqb_spec z 0); congruence. Qed.

Lemma inject_bounds (z : Z) :
  1 <= z <= 5000 -> (1 <= inject_Z z)%Q /\ (inject_Z z <= 5000)%Q.
Proof.
  intros [H1 H2]. split.
  - change 1%Q with (inject_Z 1). now rewrite <- Zle_Qle.
  - change 5000%Q with (inject_Z 5000). now rewrite <- Zle_Qle.
Qed.

Lemma resizePlan_both (originalWidth originalHeight : positive) (width height : Z) :
  width <> 0 -> height <> 0 ->
  resizePlan true (Some (Int width)) (Some (Int height))
    originalWidth originalHeight
  = let aspectRatio :=
      fdiv (inject_Z (Zpos originalWidth)) (inject_Z (Zpos originalHeight)) in
    if gt (fdiv (inject_Z width) (inject_Z height)) aspectRatio
    then (Some (Int (Math_round (fmul (inject_Z height) aspectRatio))),
          Some (Int height))
    else (Some (Int width),
          Some (Int (Math_round (fdiv (inject_Z width) aspectRatio)))).
Proof.
  intros Hw Hh. unfold resizePlan.
  rewrite (truthy_Int width), (truthy_Int height) by assumption.
  reflexivity.
Qed.

(** C3. With [maintainAspectRatio] set and a bounding box [width] x
    [height], both in 1..5000, the plan for a source image of positive
    dimensions exceeds neither bound, and the dimension it recomputes is
    within one pixel of what the exact source ratio gives for the dimension
    it keeps: the width of [height * originalWidth / originalHeight], or the
    height of [width * originalHeight / originalWidth]. *)
Theorem C3_bounding_box_plan (originalWidth originalHeight : positive) (width height : Z) :
  1 <= width <= 5000 ->
  1 <= height <= 5000 ->
  exists targetWidth targetHeight : Z,
    resizePlan true (Some (Int width)) (Some (Int height))
      originalWidth originalHeight
    = (Some (Int targetWidth), Some (Int targetHeight))
    /\ 0 <= targetWidth <= width
    /\ 0 <= targetHeight <= height
    /\ ((targetHeight = height /\
         (Qabs (inject_Z targetWidth
                - inject_Z height * (inject_Z (Zpos originalWidth)
                                     / inject_Z (Zpos originalHeight))) <= 1)%Q)
        \/
        (targetWidth = width /\
         (Qabs (inject_Z targetHeight
                - inject_Z width / (inject_Z (Zpos originalWidth)
                                    / inject_Z (Zpos originalHeight))) <= 1)%Q)).
Proof.
  intros Hw Hh.
  destruct (inject_bounds width Hw) as [HW1 HW2].
  destruct (inject_bounds height Hh) as [HH1 HH2].
  set (R := (inject_Z (Zpos originalWidth) / inject_Z (Zpos originalHeight))%Q).
  assert (HR : (0 < R)%Q).
  { apply Qlt_shift_div_l; [apply inject_pos |]. rewrite Qmult_0_l. apply inject_pos. }
  rewrite resizePlan_both by lia. cbv zeta.
  change (fdiv (inject_Z (Zpos originalWidth)) (inject_Z (Zpos originalHeight)))
    with (fl R).
  destruct (gt (fdiv (inject_Z width) (inject_Z height)) (fl R)) eqn:E.
  - destruct (recomputed_width R _ _ HR HW1 HW2 HH1 HH2 E) as (Hx0 & Hx & Hc).
    exists (Math_round (fmul (inject_Z height) (fl R))), height.
    split; [reflexivity |]. split; [| split; [lia |]].
    + split; [apply Math_round_nonneg; lra | now apply Math_round_le].
    + left. split; [reflexivity | exact Hc].
  - destruct (recomputed_height R _ _ HR HW1 HW2 HH1 HH2 E) as (Hx0 & Hx & Hc).
    exists width, (Math_round (fdiv (inject_Z width) (fl R))).
    split; [reflexivity |]. split; [lia |]. split.
    + split; [apply Math_round_nonneg; lra | now apply Math_round_le].
    + right. split; [reflexivity | exact Hc].
Qed.

Lemma C3_bounding_box_plan_witness :
  exists targetWidth targetHeight : Z,
    resizePlan true (Some (Int 150)) (Some (Int 1000)) 100 1
    = (Some (Int targetWidth), Some (Int targetHeight))
    /\ 0 <= targetWidth <= 150
    /\ 0 <= targetHeight <= 1000
    /\ ((targetHeight = 1000 /\
         (Qabs (inject_Z targetWidth
                - inject_Z 1000%Z * (inject_Z 100%Z / inject_Z 1%Z)) <= 1)%Q)
        \/
        (targetWidth = 150 /\
         (Qabs (inject_Z targetHeight
                - inject_Z 150%Z / (inject_Z 100%Z / inject_Z 1%Z)) <= 1)%Q)).
Proof. apply (C3_bounding_box_plan 100 1 150 1000); lia. Defined.

(** The width-only branch, in the handler's own operations. *)
Lemma width_only_branch (originalWidth originalHeight : positive) (width : Z) :
  1 <= width <= 5000 ->
  let r := fdiv (inject_Z (Zpos originalWidth)) (inject_Z (Zpos originalHeight)) in
  resizePlan true (Some (Int width)) None originalWidth originalHeight
  = (Some (Int width), Some (Int (Math_round (fdiv (inject_Z width) r)))).
Proof.
  intros Hw r. unfold resizePlan.
  rewrite (truthy_Int width) by lia. reflexivity.
Qed.


(** *** The rounding model against the library's binary64 *)

Example fdiv_2_3_binary64 :
  Binary64.to_Q (Binary64.div (Binary64.of_Z 2) (Binary64.of_Z 3))
  = Some (fdiv (inject_Z 2) (inject_Z 3)).
Proof. vm_compute. reflexivity. Qed.

Example fdiv_1920_1080_binary64 :
  Binary64.to_Q (Binary64.div (Binary64.of_Z 1920) (Binary64.of_Z 1080))
  = Some (fdiv (inject_Z 1920) (inject_Z 1080)).
Proof. vm_compute. reflexivity. Qed.

Example fmul_600_ratio_binary64 :
  Binary64.to_Q
    (Binary64.mul (Binary64.of_Z 600)
       (Binary64.div (Binary64.of_Z 1920) (Binary64.of_Z 1080)))
  = Some (fmul (inject_Z 600) (fdiv (inject_Z 1920) (inject_Z 1080))).
Proof. vm_compute. reflexivity. Qed.

Example fdiv_3_ratio_binary64 :
  Binary64.to_Q
    (Binary64.div (Binary64.of_Z 3)
       (Binary64.div (Binary64.of_Z 2) (Binary64.of_Z 75)))
  = Some (fdiv (inject_Z 3) (fdiv (inject_Z 2) (inject_Z 75))).
Proof. vm_compute. reflexivity. Qed.

Example fdiv_1_5000_binary64 :
  Binary64.to_Q (Binary64.div (Binary64.of_Z 1) (Binary64.of_Z 5000))
  = Some (fdiv (inject_Z 1) (inject_Z 5000)).
Proof. vm_compute. reflexivity. Qed.

(** The two roundings of the width-only branch are visible at a tie: a
    2 x 75 image asked at width 3 has the exact height 112.5, the handler
    computes 112.49999999999999 and rounds down. *)
Example width_only_tie :
  resizePlan true (Some (Int 3)) None 2 75 = (Some (Int 3), Some (Int 112))
  /\ exact_height 3 2 75 = 113.
Proof. split; vm_compute; reflexivity. Qed.

(** A plan may hold a zero: a 5000 x 1 image in a 1 x 5000 box. *)
Example plan_with_zero :
  resizePlan true (Some (Int 1)) (Some (Int 5000)) 5000 1
  = (Some (Int 1), Some (Int 0)).
Proof. vm_compute. reflexivity. Qed.

(** C8. Without [maintainAspectRatio] the plan is the requested width and
    height as they are, [null] when absent, and they are what [resize] is
    called with; a plan with both dimensions unset leads to no [resize]
    call, so that an image of a request without width and height is encoded
    as decoded. *)
Theorem C8_pass_through_and_no_resize :
  (forall (width height : value) (originalWidth originalHeight : positive),
      resizePlan false width height originalWidth originalHeight = (width, height))
  /\ (forall W width height quality i file md,
         Sharp.resize (job W width height quality false i file md)
         = resizeStep (width, height))
  /\ resizeStep (None, None) = None
  /\ (forall W quality maintainAspectRatio i file md,
         Sharp.resize (job W None None quality maintainAspectRatio i file md) = None).
Proof.
  split; [| split; [| split]].
  - intros. reflexivity.
  - intros. reflexivity.
  - reflexivity.
  - intros. unfold job. cbn [Sharp.resize].
    destruct maintainAspectRatio; reflexivity.
Qed.

(** ** Validation *)

Lemma handler_invalid W req :
  invalid (width_of req) (height_of req) (quality_of req) = true ->
  handler W req
  = (respond 400 (error_body "Invalid width, height, or quality"), []).
Proof. intros H. unfold handler. now rewrite H. Qed.

(** What lines 59-65 do reject: a width or height that parses to a
    negative integer or to one above 5000, and a quality that parses to
    [NaN] or outside 1..100. *)
Lemma invalid_parameters_rejected W req :
  (exists z, (width_of req = Some (Int z) \/ height_of req = Some (Int z))
             /\ (z < 0 \/ 5000 < z))
  \/ quality_of req = NaN
  \/ (exists z, quality_of req = Int z /\ (z < 1 \/ 100 < z)) ->
  handler W req
  = (respond 400 (error_body "Invalid width, height, or quality"), []).
Proof.
  intros H. apply handler_invalid. unfold invalid.
  destruct H as [(z & Hz & Hr) | [Hq | (z & Hq & Hr)]].
  - assert (Ho : out_of_range (Some (Int z)) = true).
    { unfold out_of_range. rewrite truthy_Int by lia.
      apply orb_true_iff. rewrite Z.ltb_lt, Z.ltb_lt. lia. }
    destruct Hz as [Hz | Hz]; rewrite Hz, Ho.
    + reflexivity.
    + now rewrite orb_true_r.
  - rewrite Hq. cbn [isNaN]. now rewrite orb_true_r, !orb_true_l.
  - rewrite Hq. cbn [isNaN ltz gtz].
    assert (Hb : (z <? 1) || (100 <? z) = true).
    { apply orb_true_iff. rewrite Z.ltb_lt, Z.ltb_lt. lia. }
    rewrite <- !orb_assoc. rewrite Hb. now rewrite !orb_true_r.
Qed.

(** A request that passes the validation and carries 1 to 20 files is
    answered 200 or 500. *)
Lemma handler_converts W req fs :
  invalid (width_of req) (height_of req) (quality_of req) = false ->
  files req = Some fs ->
  fs <> [] ->
  (List.length fs <= 20)%nat ->
  status (fst (handler W req)) <> 400.
Proof.
  intros Hv Hf Hne Hlen. unfold handler. rewrite Hv, Hf.
  destruct fs as [| f fs']; [congruence |].
  destruct (Nat.ltb_spec 20 (List.length (f :: fs'))); [lia |].
  destruct (convert W _ _ _ _ 0 (f :: fs') [] []) as [[urls |] written];
    cbn; discriminate.
Qed.

(** C1, at the inputs where the handler departs from it.  A width or a
    height that parses to 0 or to [NaN] passes the validation of lines
    59-65: the request is answered 200, or 500 when the conversion fails,
    never 400. *)
Theorem C1_zero_and_NaN_pass_validation (W : World) (file : Multer.File) :
  status (fst (handler W (Sample.request (Some "0") None None None [file]))) <> 400
  /\ status (fst (handler W (Sample.request (Some "abc") None None None [file]))) <> 400
  /\ status (fst (handler W (Sample.request None (Some "0") None None [file]))) <> 400
  /\ status (fst (handler W (Sample.request None (Some "abc") None None [file]))) <> 400.
Proof.
  repeat split;
    (eapply handler_converts;
       [vm_compute; reflexivity | reflexivity | discriminate | cbn; lia]).
Qed.

(** The same on the sample world: one image, [width=0], answered 200 with
    one URL, the image encoded without a resize. *)
Example width_zero_converted :
  handler Sample.world (Sample.request (Some "0") None None None [Sample.png "a"])
  = (respond 200
       (urls_body
          ["https://webp-convertor-backend.onrender.com/images/1700000000000-25000.webp"]),
     [ {| Sharp.input := "/srv/uploads/a";
          Sharp.resize := None;
          Sharp.webp_quality := Int 80;
          Sharp.output := "/srv/public/images/1700000000000-25000.webp" |} ]).
Proof. vm_compute. reflexivity. Qed.

(** ** The loop *)

(** A property of every pipeline holds of everything the loop writes. *)
Lemma convert_written_Forall (P : Sharp.Job -> Prop) W width height quality mar :
  (forall i file md, P (job W width height quality mar i file md)) ->
  forall fs i urls written,
    Forall P written ->
    Forall P (snd (convert W width height quality mar i fs urls written)).
Proof.
  intros HP fs. induction fs as [| file rest IH]; intros i urls written Hw.
  - exact Hw.
  - cbn [convert]. destruct (metadata W (Multer.path file)) as [md |]; [| exact Hw].
    destruct (toFile W _); [| exact Hw].
    apply IH. apply Forall_app. split; [exact Hw |].
    constructor; [apply HP | constructor].
Qed.

Lemma handler_written_Forall (P : Sharp.Job -> Prop) W req :
  (forall i file md,
      P (job W (width_of req) (height_of req) (quality_of req)
           (maintainAspectRatio_of req) i file md)) ->
  Forall P (snd (handler W req)).
Proof.
  intros HP. unfold handler.
  destruct (invalid _ _ _); [constructor |].
  destruct (files req) as [[| f fs] |]; try constructor.
  destruct (20 <? _)%nat; [constructor |].
  pose proof (convert_written_Forall P W _ _ _ _ HP (f :: fs) 0%nat [] []
                (Forall_nil_2 P)) as H.
  destruct (convert W _ _ _ _ 0 (f :: fs) [] []) as [[urls |] written]; exact H.
Qed.

(** C5. A request with [quality=0] or [quality=101] is answered 400 and
    nothing is converted; a request without the [quality] parameter has
    every image encoded at quality 80. *)
Theorem C5_quality_bounds_and_default (W : World) (req : Request) :
  (q_quality (query req) = Some "0" \/ q_quality (query req) = Some "101" ->
   handler W req
   = (respond 400 (error_body "Invalid width, height, or quality"), []))
  /\ (q_quality (query req) = None ->
      Forall (fun j => Sharp.webp_quality j = Int 80) (snd (handler W req))).
Proof.
  split.
  - intros Hq. apply invalid_parameters_rejected. right. right.
    unfold quality_of.
    destruct Hq as [Hq | Hq]; rewrite Hq.
    + exists 0. split; [reflexivity | lia].
    + exists 101. split; [reflexivity | lia].
  - intros Hq. apply handler_written_Forall. intros i file md.
    unfold job, quality_of. cbn [Sharp.webp_quality]. now rewrite Hq.
Qed.

Lemma C5_quality_bounds_and_default_witness :
  handler Sample.world (Sample.request None None (Some "0") None [Sample.png "a"])
  = (respond 400 (error_body "Invalid width, height, or quality"), [])
  /\ handler Sample.world (Sample.request None None (Some "101") None [Sample.png "a"])
     = (respond 400 (error_body "Invalid width, height, or quality"), [])
  /\ Forall (fun j => Sharp.webp_quality j = Int 80)
       (snd (handler Sample.world
               (Sample.request None None None None [Sample.png "a"; Sample.png "b"]))).
Proof.
  split; [| split].
  - apply (C5_quality_bounds_and_default Sample.world
             (Sample.request None None (Some "0") None [Sample.png "a"])).
    left. reflexivity.
  - apply (C5_quality_bounds_and_default Sample.world
             (Sample.request None None (Some "101") None [Sample.png "a"])).
    right. reflexivity.
  - apply (C5_quality_bounds_and_default Sample.world
             (Sample.request None None None None [Sample.png "a"; Sample.png "b"])).
    reflexivity.
Defined.

(** Leaving [quality] out is the same as asking for 80. *)
Lemma quality_absent_is_80 (W : World) (req : Request) :
  handler W (set_quality None req) = handler W (set_quality (Some "80") req).
Proof. reflexivity. Qed.

(** The plan and the [resize] call depend on a requested dimension only
    through its truthiness. *)
Lemma resizeStep_truthy mar (w w' h h' : value) ow oh :
  truthy w = truthy w' -> truthy h = truthy h' ->
  resizeStep (resizePlan mar w h ow oh) = resizeStep (resizePlan mar w' h' ow oh).
Proof.
  intros Hw Hh. unfold resizePlan, resizeStep, is_truthy.
  destruct mar.
  - rewrite Hw, Hh.
    destruct (truthy w') as [zw |] eqn:Ew, (truthy h') as [zh |] eqn:Eh;
      try destruct (gt _ _);
      rewrite ?Hw, ?Hh, ?Ew, ?Eh; reflexivity.
  - rewrite Hw, Hh. reflexivity.
Qed.

Lemma convert_truthy W (w w' h h' : value) quality mar :
  truthy w = truthy w' -> truthy h = truthy h' ->
  forall fs i urls written,
    convert W w h quality mar i fs urls written
    = convert W w' h' quality mar i fs urls written.
Proof.
  intros Hw Hh fs. induction fs as [| file rest IH]; intros i urls written.
  - reflexivity.
  - cbn [convert]. destruct (metadata W (Multer.path file)) as [md |]; [| reflexivity].
    assert (E : job W w h quality mar i file md = job W w' h' quality mar i file md).
    { unfold job. now rewrite (resizeStep_truthy mar w w' h h'). }
    rewrite E. destruct (toFile W _); [apply IH | reflexivity].
Qed.

Lemma handler_truthy W req req' :
  truthy (width_of req) = truthy (width_of req') ->
  truthy (height_of req) = truthy (height_of req') ->
  quality_of req = quality_of req' ->
  maintainAspectRatio_of req = maintainAspectRatio_of req' ->
  files req = files req' ->
  handler W req = handler W req'.
Proof.
  intros Hw Hh Hq Hm Hf. unfold handler, invalid, out_of_range.
  rewrite Hw, Hh, Hq, Hm, Hf.
  destruct (_ || _); [reflexivity |].
  destruct (files req') as [[| f fs] |]; try reflexivity.
  now rewrite (convert_truthy W (width_of req) (width_of req')
                 (height_of req) (height_of req')).
Qed.

Lemma parsed_falsy (s : string) :
  s = "0" \/ parseInt s = NaN -> truthy (parsed (Some s)) = None.
Proof.
  intros [-> | H]; [reflexivity |].
  destruct s as [| c r]; [reflexivity |].
  cbn [parsed]. now rewrite H.
Qed.

(** C9. A [width] (or [height]) parameter that is the string ["0"], or a
    string [parseInt] makes nothing of, is not a ground for rejection and
    puts no constraint on the plan: the handler answers, and converts,
    exactly as it does for the same request without the parameter. *)
Theorem C9_falsy_dimension_as_absent (W : World) (req : Request) (s : string) :
  s = "0" \/ parseInt s = NaN ->
  handler W (set_width (Some s) req) = handler W (set_width None req)
  /\ handler W (set_height (Some s) req) = handler W (set_height None req).
Proof.
  intros Hs. pose proof (parsed_falsy s Hs) as Hp.
  split; apply handler_truthy; try reflexivity.
  - unfold width_of, set_width. cbn [query q_width]. exact Hp.
  - unfold height_of, set_height. cbn [query q_height]. exact Hp.
Qed.

Lemma C9_falsy_dimension_as_absent_witness :
  (handler Sample.world
     (set_width (Some "abc") (Sample.request None (Some "600") None (Some "true") [Sample.png "a"]))
   = handler Sample.world
       (set_width None (Sample.request None (Some "600") None (Some "true") [Sample.png "a"]))
   /\ handler Sample.world
        (set_height (Some "abc") (Sample.request None (Some "600") None (Some "true") [Sample.png "a"]))
      = handler Sample.world
          (set_height None (Sample.request None (Some "600") None (Some "true") [Sample.png "a"])))
  /\ (handler Sample.world
        (set_width (Some "0") (Sample.request None None None None [Sample.png "a"]))
      = handler Sample.world
          (set_width None (Sample.request None None None None [Sample.png "a"]))
      /\ handler Sample.world
           (set_height (Some "0") (Sample.request None None None None [Sample.png "a"]))
         = handler Sample.world
             (set_height None (Sample.request None None None None [Sample.png "a"]))).
Proof.
  split.
  - apply (C9_falsy_dimension_as_absent Sample.world _ "abc"). right. reflexivity.
  - apply (C9_falsy_dimension_as_absent Sample.world _ "0"). left. reflexivity.
Defined.

(** ** The file count *)

Lemma accept_over_limit (n : nat) :
  forall parts,
    (n < List.length parts)%nat ->
    Forall image_part parts ->
    Multer.accept "images" n n parts = inl Multer.LIMIT_FILE_COUNT.
Proof.
  induction n as [| n IH]; intros parts Hlen Hall.
  - destruct parts as [| f rest]; [cbn in Hlen; lia | reflexivity].
  - destruct parts as [| f rest]; [cbn in Hlen; lia |].
    apply Forall_cons in Hall as [[Hname Hmime] Hrest].
    cbn [Multer.accept]. rewrite Hname, String.eqb_refl.
    unfold Multer.fileFilter. rewrite Hmime.
    rewrite IH; [reflexivity | cbn in Hlen; lia | exact Hrest].
Qed.

Lemma accept_length name :
  forall limit left parts fs,
    Multer.accept name limit left parts = inr fs ->
    (List.length fs <= left)%nat.
Proof.
  intros limit left parts. revert limit left.
  induction parts as [| f rest IH]; intros limit left fs H.
  - cbn in H. injection H as <-. cbn. lia.
  - cbn [Multer.accept] in H.
    destruct limit as [| limit']; [discriminate |].
    destruct (String.eqb _ _); [| discriminate].
    destruct left as [| left']; [discriminate |].
    destruct (Multer.fileFilter f); [discriminate |].
    destruct (Multer.accept name limit' left' rest) as [err | fs'] eqn:E;
      [discriminate |].
    injection H as <-. cbn. apply IH in E. lia.
Qed.

(** The handler's own check of lines 75-77, on a request that reaches it
    with more than 20 files. *)
Lemma handler_too_many_files W req fs :
  invalid (width_of req) (height_of req) (quality_of req) = false ->
  files req = Some fs ->
  (20 < List.length fs)%nat ->
  handler W req = (respond 400 (error_body "Maximum 20 images allowed"), []).
Proof.
  intros Hv Hf Hlen. unfold handler. rewrite Hv, Hf.
  destruct fs as [| f fs']; [cbn in Hlen; lia |].
  destruct (Nat.ltb_spec 20 (List.length (f :: fs'))); [reflexivity | lia].
Qed.

(** No request gets that far: behind the middleware, [req.files] has at
    most 20 entries, and [POST /upload] never answers with the message of
    line 76. *)
Lemma post_upload_never_maximum W q body :
  json (fst (post_upload W q body)) <> error_body "Maximum 20 images allowed".
Proof.
  unfold post_upload, upload, Multer.array.
  destruct body as [parts |].
  - destruct (Multer.accept "images" 20 20 parts) as [err | fs] eqn:E.
    + unfold errorHandler. destruct (String.eqb _ _) eqn:Em; cbn.
      * apply String.eqb_eq in Em. rewrite Em. discriminate.
      * discriminate.
    + apply accept_length in E. unfold handler. cbn [files].
      destruct (invalid _ _ _); [cbn; discriminate |].
      destruct fs as [| f fs']; [cbn; discriminate |].
      destruct (Nat.ltb_spec 20 (List.length (f :: fs'))); [lia |].
      destruct (convert W _ _ _ _ 0 (f :: fs') [] []) as [[urls |] written];
        cbn; discriminate.
  - unfold handler. cbn [files].
    destruct (invalid _ _ _); cbn; discriminate.
Qed.

(** The other half of C2 holds: a multipart body without a file, under
    valid parameters, is answered 400 "No images provided". *)
Lemma post_upload_no_files W q :
  invalid (width_of {| query := q; files := Some [] |})
          (height_of {| query := q; files := Some [] |})
          (quality_of {| query := q; files := Some [] |}) = false ->
  post_upload W q (Some [])
  = (respond 400 (error_body "No images provided"), []).
Proof.
  intros Hv. unfold post_upload, upload, Multer.array. cbn [Multer.accept].
  unfold handler. rewrite Hv. reflexivity.
Qed.

(** C2, at the input where the application departs from it.  More than 20
    image files sent to [POST /upload] in the field [images] are refused by
    the middleware, whose error the error handler of lines 133-140 answers
    with 500 "Internal server error", not with 400 and a "maximum"
    message. *)
Theorem C2_too_many_files_answered_500 (W : World) (q : Query)
    (parts : list Multer.File) :
  (20 < List.length parts)%nat ->
  Forall image_part parts ->
  post_upload W q (Some parts)
  = (respond 500 (error_body "Internal server error"), []).
Proof.
  intros Hlen Hall. unfold post_upload, upload, Multer.array.
  now rewrite (accept_over_limit 20 parts Hlen Hall).
Qed.

Lemma C2_too_many_files_answered_500_witness :
  post_upload Sample.world
    {| q_width := None; q_height := None; q_quality := None;
       q_maintainAspectRatio := None |}
    (Some (repeat (Sample.png "a") 21))
  = (respond 500 (error_body "Internal server error"), []).
Proof.
  apply (C2_too_many_files_answered_500 Sample.world).
  - cbn. lia.
  - cbn [repeat]. repeat (constructor; [split; reflexivity |]). constructor.
Defined.

(** ** Batches *)

Section Batch.

Local Open Scope list_scope.

Context (W : World) (width height : value) (quality : num) (mar : bool).

Local Abbreviation processes_at := (processes W width height quality mar).
Local Abbreviation convert_from := (convert W width height quality mar).

Lemma processes_true i file :
  processes_at i file = true ->
  exists md,
    metadata W (Multer.path file) = Some md
    /\ toFile W (job W width height quality mar i file md) = true.
Proof.
  unfold processes. destruct (metadata W (Multer.path file)) as [md |];
    [| discriminate].
  intros H. now exists md.
Qed.


(** When some pipeline fails, the loop is left at the first one that does:
    what was written before stays written, nothing after is started. *)
Lemma convert_some_fails :
  forall (fs : list Multer.File) (i : nat) urls written,
    (exists k file, fs !! k = Some file /\ processes_at (i + k) file = false) ->
    exists (n : nat) failing written',
      convert_from i fs urls written = (None, written ++ written')
      /\ List.length written' = n
      /\ fs !! n = Some failing
      /\ processes_at (i + n) failing = false
      /\ forall k file,
           (k < n)%nat -> fs !! k = Some file ->
           processes_at (i + k) file = true
           /\ exists j, written' !! k = Some j /\ Sharp.input j = Multer.path file.
Proof.
  induction fs as [| f rest IH]; intros i urls written (k & file & Hk & Hfail).
  - discriminate.
  - destruct (processes_at i f) eqn:Hp.
    + destruct (processes_true i f Hp) as (md & Hmd & Hto).
      destruct k as [| k]; [cbn in Hk; injection Hk as <-;
                            rewrite Nat.add_0_r in Hfail; congruence |].
      cbn in Hk.
      destruct (IH (S i) (urls ++ [publicUrl (outputFilename W i)])
                  (written ++ [job W width height quality mar i f md]))
        as (n & failing & written' & Hc & Hlen & Hn & Hnf & Hbefore).
      { exists k, file. split; [exact Hk |].
        now replace (S i + k)%nat with (i + S k)%nat by lia. }
      exists (S n), failing, (job W width height quality mar i f md :: written').
      split; [| split; [| split; [| split]]].
      * cbn [convert]. rewrite Hmd, Hto, Hc. now rewrite <- app_assoc.
      * cbn. now rewrite Hlen.
      * exact Hn.
      * now replace (i + S n)%nat with (S i + n)%nat by lia.
      * intros [| k'] file' Hlt Hk'.
        -- cbn in Hk'. injection Hk' as <-. rewrite Nat.add_0_r.
           split; [exact Hp |].
           exists (job W width height quality mar i f md). now split.
        -- cbn in Hk'. replace (i + S k')%nat with (S i + k')%nat by lia.
           apply Hbefore; [lia | exact Hk'].
    + exists 0%nat, f, []. rewrite app_nil_r, Nat.add_0_r.
      split; [| split; [| split; [| split]]]; try reflexivity; try exact Hp.
      * cbn [convert]. unfold processes in Hp.
        destruct (metadata W (Multer.path f)) as [md |]; [| reflexivity].
        now rewrite Hp.
      * intros k' file' Hlt. lia.
Qed.

End Batch.

Section BatchResponses.

Local Open Scope list_scope.



(** C7. When the pipeline of some image of the batch throws, the request
    is answered 500 with the body [{ error: "Image conversion failed" }]
    and nothing else: the loop stops at the first image that fails, the
    images before it have been written, none after it is started, and no
    URL is reported. *)
Theorem C7_failure_aborts_batch (W : World) (req : Request) (fs : list Multer.File) :
  invalid (width_of req) (height_of req) (quality_of req) = false ->
  files req = Some fs ->
  (List.length fs <= 20)%nat ->
  (exists k file,
      fs !! k = Some file
      /\ processes W (width_of req) (height_of req) (quality_of req)
           (maintainAspectRatio_of req) k file = false) ->
  exists (n : nat) failing written,
    handler W req = (respond 500 (error_body "Image conversion failed"), written)
    /\ List.length written = n
    /\ fs !! n = Some failing
    /\ processes W (width_of req) (height_of req) (quality_of req)
         (maintainAspectRatio_of req) n failing = false
    /\ forall k file,
         (k < n)%nat -> fs !! k = Some file ->
         processes W (width_of req) (height_of req) (quality_of req)
           (maintainAspectRatio_of req) k file = true
         /\ exists j, written !! k = Some j /\ Sharp.input j = Multer.path file.
Proof.
  intros Hv Hf Hlen Hfail.
  destruct (convert_some_fails W (width_of req) (height_of req) (quality_of req)
              (maintainAspectRatio_of req) fs 0 [] [] Hfail)
    as (n & failing & written & Hc & Hn & Hat & Hnf & Hbefore).
  exists n, failing, written. cbn [app] in Hc.
  split; [| split; [| split; [| split]]]; try assumption.
  unfold handler. rewrite Hv, Hf.
  destruct fs as [| f fs']; [discriminate |].
  destruct (Nat.ltb_spec 20 (List.length (f :: fs'))); [lia |].
  now rewrite Hc.
Qed.

Lemma C7_failure_aborts_batch_witness :
  exists (n : nat) failing written,
    handler Sample.world
      (Sample.request None None None None
         [Sample.png "a"; Sample.png "broken"; Sample.png "c"])
    = (respond 500 (error_body "Image conversion failed"), written)
    /\ List.length written = n
    /\ [Sample.png "a"; Sample.png "broken"; Sample.png "c"] !! n = Some failing
    /\ processes Sample.world None None (Int 80) false n failing = false
    /\ forall k file,
         (k < n)%nat ->
         [Sample.png "a"; Sample.png "broken"; Sample.png "c"] !! k = Some file ->
         processes Sample.world None None (Int 80) false k file = true
         /\ exists j, written !! k = Some j /\ Sharp.input j = Multer.path file.
Proof.
  apply (C7_failure_aborts_batch Sample.world
           (Sample.request None None None None
              [Sample.png "a"; Sample.png "broken"; Sample.png "c"])
           [Sample.png "a"; Sample.png "broken"; Sample.png "c"]).
  - vm_compute. reflexivity.
  - reflexivity.
  - cbn. lia.
  - exists 1%nat, (Sample.png "broken"). split; reflexivity.
Defined.

(** On the sample world: the second of three images fails, the first one
    stays written, the answer carries the error alone. *)
Example second_of_three_fails :
  handler Sample.world
    (Sample.request None None None None
       [Sample.png "a"; Sample.png "broken"; Sample.png "c"])
  = (respond 500 (error_body "Image conversion failed"),
     [ {| Sharp.input := "/srv/uploads/a";
          Sharp.resize := None;
          Sharp.webp_quality := Int 80;
          Sharp.output := "/srv/public/images/1700000000000-25000.webp" |} ]).
Proof. vm_compute. reflexivity. Qed.

End BatchResponses.

(** ** Behind the middleware

    The statements about the handler hold of [POST /upload] for every body
    the middleware lets through. *)

Lemma post_upload_accepted W q body fs :
  upload "images" 20 body = inr fs ->
  post_upload W q body = handler W {| query := q; files := fs |}.
Proof. intros H. unfold post_upload. now rewrite H. Qed.

(** A file that is not an image is answered 400 with the filter's
    message. *)
Example text_file_refused :
  post_upload Sample.world
    {| q_width := None; q_height := None; q_quality := None;
       q_maintainAspectRatio := None |}
    (Some [ {| Multer.fieldname := "images";
               Multer.originalname := "notes.txt";
               Multer.mimetype := "text/plain";
               Multer.path := "/srv/uploads/notes" |} ])
  = (respond 400 (error_body "Only image files are allowed"), []).
Proof. vm_compute. reflexivity. Qed.


(** ** Reading decimal numbers *)

Section Decimal.

Lemma white_space_number (c : ascii) (r : string) :
  (48 <=? Z.of_N (byte c)) && (Z.of_N (byte c) <=? 57) = true \/ c = "-"%char ->
  white_space (String c r) = 0%nat.
Proof.
  intros H.
  destruct c as [[] [] [] [] [] [] [] []];
    cbn in H; (destruct H as [H | H]; try discriminate H);
    destruct r as [| b [| c' r']]; reflexivity.
Qed.

Lemma trim_start_none (n : nat) (s : string) :
  white_space s = 0%nat -> trim_start n s = s.
Proof. intros H. destruct n; [reflexivity |]. cbn [trim_start]. now rewrite H. Qed.

Lemma digits_plain_suffix (acc : Z) (t : string) :
  plain_suffix t = true -> digits 10 (Some acc) t = Some acc.
Proof.
  destruct t as [| c r]; [reflexivity |].
  cbn [plain_suffix digits]. destruct (digit 10 c); [discriminate | reflexivity].
Qed.

Lemma digits_cons (acc v : Z) (c : ascii) (r : string) :
  digit 10 c = Some v ->
  digits 10 (Some acc) (String c r) = digits 10 (Some (10 * acc + v)) r.
Proof. intros H. cbn [digits]. now rewrite H. Qed.

Lemma digits_uint (d : Decimal.uint) :
  forall (acc : Z) (t : string),
    plain_suffix t = true ->
    digits 10 (Some acc) (NilEmpty.string_of_uint d ++ t)%string
    = Some (uint_value acc d).
Proof.
  induction d; intros acc t Ht;
    cbn [NilEmpty.string_of_uint uint_value String.append].
  - now apply digits_plain_suffix.
  - rewrite (digits_cons acc 0) by reflexivity. now apply IHd.
  - rewrite (digits_cons acc 1) by reflexivity. now apply IHd.
  - rewrite (digits_cons acc 2) by reflexivity. now apply IHd.
  - rewrite (digits_cons acc 3) by reflexivity. now apply IHd.
  - rewrite (digits_cons acc 4) by reflexivity. now apply IHd.
  - rewrite (digits_cons acc 5) by reflexivity. now apply IHd.
  - rewrite (digits_cons acc 6) by reflexivity. now apply IHd.
  - rewrite (digits_cons acc 7) by reflexivity. now apply IHd.
  - rewrite (digits_cons acc 8) by reflexivity. now apply IHd.
  - rewrite (digits_cons acc 9) by reflexivity. now apply IHd.
Qed.

Lemma uint_value_pos (d : Decimal.uint) :
  forall p : positive, uint_value (Zpos p) d = Zpos (Pos.of_uint_acc d p).
Proof.
  induction d; intros p; cbn [uint_value Pos.of_uint_acc];
    try reflexivity; rewrite <- IHd; f_equal; lia.
Qed.

Lemma uint_value_0 (d : Decimal.uint) :
  uint_value 0 d = Z.of_N (Pos.of_uint d).
Proof.
  induction d; cbn [uint_value Pos.of_uint]; try reflexivity;
    try exact IHd; apply uint_value_pos.
Qed.

Lemma plain_suffix_no_x (t : string) :
  plain_suffix t = true -> starts_with_x t = false.
Proof.
  destruct t as [| c r]; [reflexivity |]. cbn [plain_suffix starts_with_x].
  destruct (digit 10 c); [discriminate |]. now destruct (_ || _).
Qed.

Lemma uint_no_x (d : Decimal.uint) (t : string) :
  plain_suffix t = true ->
  starts_with_x (NilEmpty.string_of_uint d ++ t)%string = false.
Proof.
  intros Ht. destruct d; try reflexivity. now apply plain_suffix_no_x.
Qed.

Lemma uint_head (d : Decimal.uint) (t : string) :
  d <> Decimal.Nil ->
  exists c r,
    (NilEmpty.string_of_uint d ++ t)%string = String c r
    /\ (48 <=? Z.of_N (byte c)) && (Z.of_N (byte c) <=? 57) = true.
Proof.
  intros Hd. destruct d; [congruence | ..];
    cbn [NilEmpty.string_of_uint String.append]; eexists _, _; split; reflexivity.
Qed.

(** A string that starts with a decimal digit and is no [0x]: read in
    radix 10, without a sign. *)
Lemma parseInt_digits (c : ascii) (r : string) :
  (48 <=? Z.of_N (byte c)) && (Z.of_N (byte c) <=? 57) = true ->
  starts_with_x r = false ->
  parseInt (String c r)
  = match digits 10 None (String c r) with Some n => Int n | None => NaN end.
Proof.
  intros Hc Hx. unfold parseInt.
  rewrite trim_start_none by (apply white_space_number; now left).
  destruct c as [[] [] [] [] [] [] [] []]; try discriminate Hc;
    try (cbv beta iota zeta; destruct (digits 10 None _); [f_equal; lia | reflexivity]).
  destruct r as [| c' r']; cbv beta iota zeta.
  - reflexivity.
  - destruct c' as [[] [] [] [] [] [] [] []]; try discriminate Hx;
      cbv beta iota zeta;
      (destruct (digits 10 None _); [f_equal; lia | reflexivity]).
Qed.

Lemma parseInt_minus_digits (c : ascii) (r : string) :
  (48 <=? Z.of_N (byte c)) && (Z.of_N (byte c) <=? 57) = true ->
  starts_with_x r = false ->
  parseInt (String "-" (String c r))
  = match digits 10 None (String c r) with Some n => Int (- n) | None => NaN end.
Proof.
  intros Hc Hx. unfold parseInt.
  rewrite trim_start_none by (apply white_space_number; now right).
  destruct c as [[] [] [] [] [] [] [] []]; try discriminate Hc;
    try (cbv beta iota zeta; destruct (digits 10 None _); [f_equal; lia | reflexivity]).
  destruct r as [| c' r']; cbv beta iota zeta.
  - reflexivity.
  - destruct c' as [[] [] [] [] [] [] [] []]; try discriminate Hx;
      cbv beta iota zeta;
      (destruct (digits 10 None _); [f_equal; lia | reflexivity]).
Qed.

Lemma digits_None_uint (d : Decimal.uint) (t : string) :
  d <> Decimal.Nil ->
  plain_suffix t = true ->
  digits 10 None (NilEmpty.string_of_uint d ++ t)%string
  = Some (uint_value 0 d).
Proof.
  intros Hd Ht. destruct d; [congruence | ..];
    cbn [NilEmpty.string_of_uint String.append uint_value];
    cbn [digits];
    match goal with
    | |- context [digit 10 ?c] =>
        let v := eval cbv in (digit 10 c) in change (digit 10 c) with v
    end;
    cbv beta iota; now apply digits_uint.
Qed.

Lemma parseInt_uint (d : Decimal.uint) (t : string) :
  d <> Decimal.Nil ->
  plain_suffix t = true ->
  parseInt (NilEmpty.string_of_uint d ++ t)%string = Int (uint_value 0 d)
  /\ parseInt (String "-" (NilEmpty.string_of_uint d ++ t))%string
     = Int (- uint_value 0 d).
Proof.
  intros Hd Ht.
  pose proof (digits_None_uint d t Hd Ht) as Hdig.
  assert (Hx : forall c r,
             (NilEmpty.string_of_uint d ++ t)%string = String c r ->
             starts_with_x r = false).
  { intros c r E. destruct d; [congruence | ..];
      cbn [NilEmpty.string_of_uint String.append] in E;
      injection E as _ <-; now apply uint_no_x. }
  destruct (uint_head d t Hd) as (c & r & E & Hc).
  specialize (Hx c r E). rewrite E in *.
  split.
  - rewrite parseInt_digits by assumption. now rewrite Hdig.
  - rewrite parseInt_minus_digits by assumption. now rewrite Hdig.
Qed.

(** What is printed is read back, whatever plain text follows it. *)
Lemma parseInt_toString (z : Z) (t : string) :
  plain_suffix t = true ->
  parseInt (toString z ++ t)%string = Int z.
Proof.
  intros Ht. unfold toString. destruct z as [| p | p]; cbn [Z.to_int].
  - apply (parseInt_uint (Decimal.D0 Decimal.Nil) t); [discriminate | assumption].
  - pose proof (Unsigned.to_uint_nonnil p) as Hn.
    assert (E : NilZero.string_of_int (Decimal.Pos (Pos.to_uint p))
                = NilEmpty.string_of_uint (Pos.to_uint p)).
    { cbn [NilZero.string_of_int]. unfold NilZero.string_of_uint.
      destruct (Pos.to_uint p); [congruence | ..]; reflexivity. }
    rewrite E. destruct (parseInt_uint (Pos.to_uint p) t Hn Ht) as [H _].
    rewrite H, uint_value_0, Unsigned.of_to. reflexivity.
  - pose proof (Unsigned.to_uint_nonnil p) as Hn.
    assert (E : NilZero.string_of_int (Decimal.Neg (Pos.to_uint p))
                = String "-" (NilEmpty.string_of_uint (Pos.to_uint p))).
    { cbn [NilZero.string_of_int]. unfold NilZero.string_of_uint.
      destruct (Pos.to_uint p); [congruence | ..]; reflexivity. }
    rewrite E. cbn [String.append].
    destruct (parseInt_uint (Pos.to_uint p) t Hn Ht) as [_ H].
    rewrite H, uint_value_0, Unsigned.of_to. reflexivity.
Qed.

Lemma toString_nonempty (z : Z) : toString z <> EmptyString.
Proof.
  unfold toString. destruct z as [| p | p]; cbn [Z.to_int];
    [discriminate | | discriminate].
  pose proof (Unsigned.to_uint_nonnil p) as Hn.
  cbn [NilZero.string_of_int]. unfold NilZero.string_of_uint.
  destruct (Pos.to_uint p); [congruence | ..]; discriminate.
Qed.

End Decimal.


(** ** What the validation lets through *)

Lemma out_of_range_false (v : value) :
  out_of_range v = false <-> acceptable v.
Proof.
  unfold out_of_range, acceptable. split.
  - destruct (truthy v) as [z |] eqn:E; [| now left].
    intros H. right. exists z.
    apply orb_false_iff in H as [H1 H2].
    apply Z.ltb_ge in H1. apply Z.ltb_ge in H2.
    split; [| lia].
    destruct v as [[| z'] |]; cbn in E; try discriminate.
    destruct (z' =? 0); [discriminate | congruence].
  - intros [H | (z & -> & Hz)]; [now rewrite H |].
    rewrite truthy_Int by lia.
    apply orb_false_iff. rewrite !Z.ltb_ge. lia.
Qed.

Lemma invalid_false_iff (w h : value) (q : num) :
  invalid w h q = false
  <-> acceptable w /\ acceptable h /\ exists z, q = Int z /\ 1 <= z <= 100.
Proof.
  unfold invalid. rewrite !orb_false_iff, !out_of_range_false. split.
  - intros ((((Hw & Hh) & Hn) & Hl) & Hg). split; [| split]; try assumption.
    destruct q as [| z]; [discriminate |]. exists z. cbn in Hl, Hg.
    apply Z.ltb_ge in Hl. apply Z.ltb_ge in Hg. split; [reflexivity | lia].
  - intros (Hw & Hh & z & -> & Hz). cbn. rewrite !Z.ltb_ge. repeat split; try assumption; lia.
Qed.

Lemma handler_valid_answer W req :
  invalid (width_of req) (height_of req) (quality_of req) = false ->
  fst (handler W req)
  <> respond 400 (error_body "Invalid width, height, or quality").
Proof.
  intros Hv. unfold handler. rewrite Hv.
  destruct (files req) as [[| f fs] |]; try (cbn; discriminate).
  destruct (20 <? _)%nat; [cbn; discriminate |].
  destruct (convert W _ _ _ _ 0 (f :: fs) [] []) as [[urls |] written];
    cbn; discriminate.
Qed.

(** X1. The answer is 400 "Invalid width, height, or quality" exactly when a
    width or height is a non-zero integer outside 1..5000 or the quality is
    not an integer from 1 to 100; the files play no part. *)
Theorem invalid_answer_iff (W : World) (req : Request) :
  fst (handler W req)
  = respond 400 (error_body "Invalid width, height, or quality")
  <-> ~ (acceptable (width_of req) /\ acceptable (height_of req)
         /\ exists z, quality_of req = Int z /\ 1 <= z <= 100).
Proof.
  rewrite <- invalid_false_iff. split.
  - intros H Hv. now apply (handler_valid_answer W req Hv).
  - intros H.
    destruct (invalid (width_of req) (height_of req) (quality_of req)) eqn:E;
      [| now elim H].
    now rewrite (handler_invalid W req E).
Qed.

Lemma parsed_toString (z : Z) (t : string) :
  plain_suffix t = true ->
  parsed (Some (toString z ++ t)%string) = Some (Int z).
Proof.
  intros Ht. pose proof (parseInt_toString z t Ht) as H.
  destruct (toString z ++ t)%string as [| c r] eqn:E.
  - exfalso. destruct (toString z) eqn:Ez; [now apply (toString_nonempty z) |].
    discriminate E.
  - cbn [parsed]. now rewrite H.
Qed.

(** X2. Every width and height from 1 to 5000 and every quality from 1 to 100,
    written in decimal, passes the validation and is the number the handler
    works with. *)
Theorem decimal_parameters_accepted (W : World) (req : Request) (w h q : Z) :
  1 <= w <= 5000 -> 1 <= h <= 5000 -> 1 <= q <= 100 ->
  q_width (query req) = Some (toString w) ->
  q_height (query req) = Some (toString h) ->
  q_quality (query req) = Some (toString q) ->
  width_of req = Some (Int w)
  /\ height_of req = Some (Int h)
  /\ quality_of req = Int q
  /\ fst (handler W req)
     <> respond 400 (error_body "Invalid width, height, or quality").
Proof.
  intros Hw Hh Hq Ew Eh Eq.
  pose proof (fun z => parsed_toString z EmptyString eq_refl) as P.
  assert (A : forall s : string, (s ++ "")%string = s).
  { induction s as [| c s IH]; [reflexivity |]. cbn. now rewrite IH. }
  assert (E1 : width_of req = Some (Int w)).
  { unfold width_of. rewrite Ew, <- (A (toString w)). apply P. }
  assert (E2 : height_of req = Some (Int h)).
  { unfold height_of. rewrite Eh, <- (A (toString h)). apply P. }
  assert (E3 : quality_of req = Int q).
  { unfold quality_of. rewrite Eq, <- (A (toString q)), P. reflexivity. }
  repeat split; try assumption.
  apply handler_valid_answer. rewrite E1, E2, E3.
  apply invalid_false_iff. split; [| split].
  - right. now exists w.
  - right. now exists h.
  - now exists q.
Qed.

Lemma decimal_parameters_accepted_witness :
  width_of (Sample.request (Some "800") (Some "600") (Some "90") None [Sample.png "a"])
  = Some (Int 800)
  /\ height_of (Sample.request (Some "800") (Some "600") (Some "90") None [Sample.png "a"])
     = Some (Int 600)
  /\ quality_of (Sample.request (Some "800") (Some "600") (Some "90") None [Sample.png "a"])
     = Int 90
  /\ fst (handler Sample.world
            (Sample.request (Some "800") (Some "600") (Some "90") None [Sample.png "a"]))
     <> respond 400 (error_body "Invalid width, height, or quality").
Proof.
  apply (decimal_parameters_accepted Sample.world
           (Sample.request (Some "800") (Some "600") (Some "90") None [Sample.png "a"])
           800 600 90); try lia; reflexivity.
Defined.

(** X3. Text after the number is not read: [width=800px] is [width=800], and
    likewise for the height and the quality. *)
Theorem trailing_text_ignored (W : World) (req : Request) (z : Z) (t : string) :
  plain_suffix t = true ->
  handler W (set_width (Some (toString z ++ t)%string) req)
  = handler W (set_width (Some (toString z)) req)
  /\ handler W (set_height (Some (toString z ++ t)%string) req)
     = handler W (set_height (Some (toString z)) req)
  /\ handler W (set_quality (Some (toString z ++ t)%string) req)
     = handler W (set_quality (Some (toString z)) req).
Proof.
  intros Ht.
  assert (A : forall s : string, (s ++ "")%string = s).
  { induction s as [| c s IH]; [reflexivity |]. cbn. now rewrite IH. }
  assert (E : parsed (Some (toString z ++ t)%string) = parsed (Some (toString z))).
  { rewrite (parsed_toString z t Ht). rewrite <- (A (toString z)) at 1.
    symmetry. now apply parsed_toString. }
  unfold handler, width_of, height_of, quality_of, maintainAspectRatio_of,
    set_width, set_height, set_quality; cbn [query files q_width q_height q_quality
    q_maintainAspectRatio].
  now rewrite E.
Qed.

Lemma trailing_text_ignored_witness :
  handler Sample.world
    (set_width (Some "800px") (Sample.request None None None None [Sample.png "a"]))
  = handler Sample.world
      (set_width (Some "800") (Sample.request None None None None [Sample.png "a"]))
  /\ handler Sample.world
       (set_height (Some "800px") (Sample.request None None None None [Sample.png "a"]))
     = handler Sample.world
         (set_height (Some "800") (Sample.request None None None None [Sample.png "a"]))
  /\ handler Sample.world
       (set_quality (Some "800px") (Sample.request None None None None [Sample.png "a"]))
     = handler Sample.world
         (set_quality (Some "800") (Sample.request None None None None [Sample.png "a"])).
Proof.
  apply (trailing_text_ignored Sample.world
           (Sample.request None None None None [Sample.png "a"]) 800 "px").
  reflexivity.
Defined.

(** ** What is written, whatever the answer *)

Section Written.

Local Open Scope list_scope.

Context (W : World) (width height : value) (quality : num) (mar : bool).

(** Everything the loop writes is, position by position, the pipeline of
    the file at that position, run to its end. *)
Lemma convert_written :
  forall (fs : list Multer.File) (i : nat) urls written,
    exists written',
      snd (convert W width height quality mar i fs urls written)
      = written ++ written'
      /\ (List.length written' <= List.length fs)%nat
      /\ forall k j,
           written' !! k = Some j ->
           exists file md,
             fs !! k = Some file
             /\ metadata W (Multer.path file) = Some md
             /\ j = job W width height quality mar (i + k) file md.
Proof.
  induction fs as [| f rest IH]; intros i urls written.
  - exists []. rewrite app_nil_r. repeat split; [cbn; lia | discriminate].
  - cbn [convert].
    destruct (metadata W (Multer.path f)) as [md |] eqn:Hmd.
    2:{ exists []. rewrite app_nil_r. repeat split; [cbn; lia | discriminate]. }
    destruct (toFile W (job W width height quality mar i f md)) eqn:Hto.
    2:{ exists []. rewrite app_nil_r. repeat split; [cbn; lia | discriminate]. }
    destruct (IH (S i) (urls ++ [publicUrl (outputFilename W i)])
                (written ++ [job W width height quality mar i f md]))
      as (written' & Hs & Hlen & Hat).
    exists (job W width height quality mar i f md :: written').
    split; [| split].
    + rewrite Hs. now rewrite <- app_assoc.
    + cbn. lia.
    + intros [| k] j Hk.
      * cbn in Hk. injection Hk as <-. exists f, md.
        rewrite Nat.add_0_r. now repeat split.
      * cbn in Hk. destruct (Hat k j Hk) as (file & md' & Hf & Hm & Hj).
        exists file, md'. replace (i + S k)%nat with (S i + k)%nat by lia.
        now repeat split.
Qed.

(** The loop ends normally only when every pipeline ran; the URLs are then
    those of the generated names, in order. *)
Lemma convert_Some :
  forall (fs : list Multer.File) (i : nat) urls written urls' written',
    convert W width height quality mar i fs urls written = (Some urls', written') ->
    urls' = urls ++ map (fun k => publicUrl (outputFilename W k))
                      (seq i (List.length fs))
    /\ List.length written' = (List.length written + List.length fs)%nat
    /\ forall k file,
         fs !! k = Some file ->
         processes W width height quality mar (i + k) file = true.
Proof.
  induction fs as [| f rest IH]; intros i urls written urls' written' H.
  - cbn in H. injection H as <- <-. rewrite app_nil_r.
    repeat split; [cbn; lia | discriminate].
  - cbn [convert] in H.
    destruct (metadata W (Multer.path f)) as [md |] eqn:Hmd; [| discriminate].
    destruct (toFile W (job W width height quality mar i f md)) eqn:Hto;
      [| discriminate].
    apply IH in H as (Hu & Hl & Hp).
    split; [| split].
    + rewrite Hu. cbn [List.length seq map]. now rewrite <- app_assoc.
    + rewrite Hl, length_app. cbn. lia.
    + intros [| k] file Hk.
      * cbn in Hk. injection Hk as <-. rewrite Nat.add_0_r.
        unfold processes. now rewrite Hmd.
      * cbn in Hk. replace (i + S k)%nat with (S i + k)%nat by lia.
        now apply Hp.
Qed.

End Written.

Section Answers.

Local Open Scope list_scope.

(** X4. Whatever the answer, the [k]-th output written is the conversion of
    the [k]-th uploaded file: read from the path the upload was stored at,
    written under the [k]-th generated name, with the parameters of the
    request, which passed the validation. *)
Theorem written_follows_files (W : World) (req : Request) (k : nat) (j : Sharp.Job) :
  snd (handler W req) !! k = Some j ->
  exists fs file md,
    files req = Some fs
    /\ (List.length fs <= 20)%nat
    /\ fs !! k = Some file
    /\ metadata W (Multer.path file) = Some md
    /\ invalid (width_of req) (height_of req) (quality_of req) = false
    /\ j = job W (width_of req) (height_of req) (quality_of req)
             (maintainAspectRatio_of req) k file md.
Proof.
  unfold handler.
  destruct (invalid _ _ _) eqn:Hv; [discriminate |].
  destruct (files req) as [[| f fs] |] eqn:Hf; try discriminate.
  destruct (Nat.ltb_spec 20 (List.length (f :: fs))) as [| Hlen]; [discriminate |].
  destruct (convert_written W (width_of req) (height_of req) (quality_of req)
              (maintainAspectRatio_of req) (f :: fs) 0 [] [])
    as (written' & Hs & _ & Hat).
  cbn [app] in Hs.
  destruct (convert W _ _ _ _ 0 (f :: fs) [] []) as [[urls |] written];
    cbn [snd] in Hs |- *; subst written; intros Hk;
    destruct (Hat k j Hk) as (file & md & Hfile & Hmd & Hj);
    exists (f :: fs), file, md; repeat split; assumption.
Qed.

Lemma written_follows_files_witness :
  exists fs file md,
    files (Sample.request (Some "800") None None (Some "true")
             [Sample.png "a"; Sample.png "broken"]) = Some fs
    /\ (List.length fs <= 20)%nat
    /\ fs !! 0%nat = Some file
    /\ metadata Sample.world (Multer.path file) = Some md
    /\ invalid (Some (Int 800)) None (Int 80) = false
    /\ {| Sharp.input := "/srv/uploads/a";
          Sharp.resize := Some (Some 800, Some 450);
          Sharp.webp_quality := Int 80;
          Sharp.output := "/srv/public/images/1700000000000-25000.webp" |}
       = job Sample.world (Some (Int 800)) None (Int 80) true 0 file md.
Proof.
  apply (written_follows_files Sample.world
           (Sample.request (Some "800") None None (Some "true")
              [Sample.png "a"; Sample.png "broken"]) 0).
  vm_compute. reflexivity.
Defined.

(** X5. A request answered 400 has left nothing behind: no pipeline was run,
    by the handler or in front of it. *)
Theorem bad_request_writes_nothing (W : World) (q : Query)
    (body : option (list Multer.File)) :
  status (fst (post_upload W q body)) = 400 ->
  snd (post_upload W q body) = [].
Proof.
  unfold post_upload. destruct (upload "images" 20 body) as [err | fs];
    [reflexivity |].
  unfold handler. cbn [files query].
  destruct (invalid _ _ _); [reflexivity |].
  destruct fs as [[| f fs] |]; try reflexivity.
  destruct (20 <? _)%nat; [reflexivity |].
  destruct (convert W _ _ _ _ 0 (f :: fs) [] []) as [[urls |] written];
    cbn; discriminate.
Qed.

Lemma bad_request_writes_nothing_witness :
  snd (post_upload Sample.world
         {| q_width := Some "-3"; q_height := None; q_quality := None;
            q_maintainAspectRatio := None |}
         (Some [Sample.png "a"])) = [].
Proof.
  apply (bad_request_writes_nothing Sample.world). reflexivity.
Defined.

(** X6. An answer 200 means that every uploaded file was converted: there were
    1 to 20 files, every pipeline ran, as many outputs were written, and
    the URLs are those of the generated names in the order of the files. *)
Theorem ok_answer_lists_every_file (W : World) (req : Request)
    (urls : list string) (written : list Sharp.Job) :
  handler W req = (respond 200 (urls_body urls), written) ->
  exists fs,
    files req = Some fs
    /\ (1 <= List.length fs <= 20)%nat
    /\ urls = map (fun i => publicUrl (outputFilename W i))
                (seq 0 (List.length fs))
    /\ List.length written = List.length fs
    /\ forall i file,
         fs !! i = Some file ->
         processes W (width_of req) (height_of req) (quality_of req)
           (maintainAspectRatio_of req) i file = true.
Proof.
  unfold handler.
  destruct (invalid _ _ _); [discriminate |].
  destruct (files req) as [[| f fs] |]; try discriminate.
  destruct (Nat.ltb_spec 20 (List.length (f :: fs))) as [| Hlen]; [discriminate |].
  destruct (convert W _ _ _ _ 0 (f :: fs) [] []) as [[urls' |] written'] eqn:Hc;
    [| discriminate].
  intros H. injection H as <- <-.
  apply convert_Some in Hc as (Hu & Hl & Hp).
  exists (f :: fs). repeat split; try assumption; cbn; lia.
Qed.

Lemma ok_answer_lists_every_file_witness :
  exists fs,
    files (Sample.request None None None None [Sample.png "a"; Sample.png "b"])
    = Some fs
    /\ (1 <= List.length fs <= 20)%nat
    /\ [ "https://webp-convertor-backend.onrender.com/images/1700000000000-25000.webp";
         "https://webp-convertor-backend.onrender.com/images/1700000000001-25000.webp" ]
       = map (fun i => publicUrl (outputFilename Sample.world i))
           (seq 0 (List.length fs))
    /\ List.length
         [ {| Sharp.input := "/srv/uploads/a"; Sharp.resize := None;
              Sharp.webp_quality := Int 80;
              Sharp.output := "/srv/public/images/1700000000000-25000.webp" |};
           {| Sharp.input := "/srv/uploads/b"; Sharp.resize := None;
              Sharp.webp_quality := Int 80;
              Sharp.output := "/srv/public/images/1700000000001-25000.webp" |} ]
       = List.length fs
    /\ forall i file,
         fs !! i = Some file ->
         processes Sample.world None None (Int 80) false i file = true.
Proof.
  apply (ok_answer_lists_every_file Sample.world
           (Sample.request None None None None [Sample.png "a"; Sample.png "b"])).
  vm_compute. reflexivity.
Defined.

(** X7. Every image is encoded at an integer quality from 1 to 100. *)
Theorem written_quality_in_range (W : World) (req : Request) :
  Forall (fun j => exists z, Sharp.webp_quality j = Int z /\ 1 <= z <= 100)
    (snd (handler W req)).
Proof.
  destruct (invalid (width_of req) (height_of req) (quality_of req)) eqn:Hv.
  - rewrite (handler_invalid W req Hv). constructor.
  - apply invalid_false_iff in Hv as (_ & _ & z & Hq & Hz).
    apply handler_written_Forall. intros i file md.
    exists z. unfold job. cbn [Sharp.webp_quality]. now split.
Qed.

End Answers.

(** ** The arguments of [resize] *)

Lemma truthy_acceptable (v : value) (z : Z) :
  acceptable v -> truthy v = Some z -> 1 <= z <= 5000.
Proof.
  intros [H | (z' & -> & Hz)] Ht; [congruence |].
  rewrite truthy_Int in Ht by lia. congruence.
Qed.

Lemma truthy_round (x : Q) (z : Z) :
  (0 <= x)%Q -> truthy (Some (Int (Math_round x))) = Some z -> 1 <= z.
Proof.
  intros Hx. cbn [truthy]. pose proof (Math_round_nonneg x Hx) as H0.
  destruct (Z.eqb_spec (Math_round x) 0); [discriminate |].
  intros [= <-]. lia.
Qed.

Lemma product_nonneg (h : Z) (ar : Q) :
  1 <= h -> (0 < ar)%Q -> (0 <= fmul (inject_Z h) ar)%Q.
Proof.
  intros Hh Har. apply Qlt_le_weak, fl_positive, Qmult_lt_0_compat; [| assumption].
  change 0%Q with (inject_Z 0). rewrite <- Zlt_Qlt. lia.
Qed.

Lemma quotient_nonneg (w : Z) (ar : Q) :
  1 <= w -> (0 < ar)%Q -> (0 <= fdiv (inject_Z w) ar)%Q.
Proof.
  intros Hw Har. apply Qlt_le_weak, fl_positive, Qlt_shift_div_l; [assumption |].
  rewrite Qmult_0_l. change 0%Q with (inject_Z 0). rewrite <- Zlt_Qlt. lia.
Qed.

Lemma aspectRatio_positive (ow oh : positive) :
  (0 < fdiv (inject_Z (Zpos ow)) (inject_Z (Zpos oh)))%Q.
Proof.
  apply fl_positive, Qlt_shift_div_l; [apply inject_pos |].
  rewrite Qmult_0_l. apply inject_pos.
Qed.

Lemma plan_targets_positive mar (w h : value) (ow oh : positive) :
  acceptable w -> acceptable h ->
  (forall z, truthy (fst (resizePlan mar w h ow oh)) = Some z -> 1 <= z)
  /\ (forall z, truthy (snd (resizePlan mar w h ow oh)) = Some z -> 1 <= z).
Proof.
  intros Hw Hh.
  pose proof (aspectRatio_positive ow oh) as Har.
  pose proof (fun z => truthy_acceptable w z Hw) as Pw.
  pose proof (fun z => truthy_acceptable h z Hh) as Ph.
  unfold resizePlan. destruct mar.
  2:{ cbn [fst snd]. split; intros z Hz; [apply (Pw z Hz) | apply (Ph z Hz)]. }
  destruct (truthy w) as [zw |] eqn:Ew, (truthy h) as [zh |] eqn:Eh;
    try destruct (gt _ _); cbn [fst snd]; split; intros z Hz;
    try (rewrite Ew in Hz); try (rewrite Eh in Hz); try discriminate Hz;
    first [ apply (Pw z Hz) | apply (Ph z Hz)
          | apply (truthy_round _ z) in Hz; [exact Hz |];
            first [ apply quotient_nonneg | apply product_nonneg ];
            [first [ apply (Pw _ eq_refl) | apply (Ph _ eq_refl) ] | exact Har] ].
Qed.

(** X8. [resize] is never called with two [null]s, with a zero or with a
    negative number: each argument given is an integer of at least 1. *)
Theorem resize_arguments_positive (W : World) (req : Request) :
  Forall positive_resize (snd (handler W req)).
Proof.
  destruct (invalid (width_of req) (height_of req) (quality_of req)) eqn:Hv.
  - rewrite (handler_invalid W req Hv). constructor.
  - apply invalid_false_iff in Hv as (Hw & Hh & _).
    apply handler_written_Forall. intros i file md.
    unfold positive_resize, job. cbn [Sharp.resize].
    destruct (plan_targets_positive (maintainAspectRatio_of req)
                (width_of req) (height_of req)
                (Sharp.width md) (Sharp.height md) Hw Hh) as [P1 P2].
    destruct (resizePlan _ _ _ _ _) as [tw th]. cbn [fst snd] in P1, P2.
    unfold resizeStep, is_truthy.
    destruct (truthy tw) as [a |] eqn:Ea, (truthy th) as [b |] eqn:Eb;
      cbn [orb]; try exact I;
      (split; [first [left; discriminate | right; discriminate] |]);
      (split; intros z Hz; try discriminate Hz; injection Hz as <-;
       first [now apply P1 | now apply P2]).
Qed.

(** ** The answers of [POST /upload] *)

(** X9. Every answer is one of six: 200 with URLs, 400 with one of three
    messages, 500 with one of two. *)
Theorem post_upload_answers (W : World) (q : Query)
    (body : option (list Multer.File)) :
  let answer := fst (post_upload W q body) in
  (exists urls, answer = respond 200 (urls_body urls))
  \/ answer = respond 400 (error_body "Invalid width, height, or quality")
  \/ answer = respond 400 (error_body "No images provided")
  \/ answer = respond 400 (error_body "Only image files are allowed")
  \/ answer = respond 500 (error_body "Image conversion failed")
  \/ answer = respond 500 (error_body "Internal server error").
Proof.
  cbv zeta. unfold post_upload.
  destruct (upload "images" 20 body) as [err | fs] eqn:Hu.
  - cbn [fst]. unfold errorHandler.
    destruct (String.eqb _ _) eqn:E.
    + apply String.eqb_eq in E. rewrite E. tauto.
    + tauto.
  - unfold upload, Multer.array in Hu.
    assert (Hlen : forall l, fs = Some l -> (List.length l <= 20)%nat).
    { intros l ->. destruct body as [parts |]; [| discriminate].
      destruct (Multer.accept "images" 20 20 parts) as [| l'] eqn:E;
        [discriminate |].
      injection Hu as ->. now apply accept_length in E. }
    unfold handler. cbn [files query].
    destruct (invalid _ _ _); [cbn; tauto |].
    destruct fs as [[| f l] |]; try (cbn; tauto).
    specialize (Hlen _ eq_refl).
    destruct (Nat.ltb_spec 20 (List.length (f :: l))); [lia |].
    destruct (convert W _ _ _ _ 0 (f :: l) [] []) as [[urls |] written];
      cbn [fst]; [left; now exists urls | tauto].
Qed.

(** ** The middleware and the file filter *)

Lemma accept_inr_iff (parts : list Multer.File) :
  forall (n : nat) (fs : list Multer.File),
    Multer.accept "images" n n parts = inr fs
    <-> fs = parts /\ (List.length parts <= n)%nat /\ Forall image_part parts.
Proof.
  induction parts as [| f rest IH]; intros n fs.
  - cbn. split.
    + intros [= <-]. repeat split; [lia | constructor].
    + intros (-> & _). reflexivity.
  - cbn [Multer.accept List.length]. destruct n as [| n].
    + split; [discriminate | intros (_ & H & _); lia].
    + unfold image_part at 1. unfold Multer.fileFilter.
      destruct (String.eqb_spec (Multer.fieldname f) "images") as [Hn | Hn].
      2:{ split; [discriminate |].
          intros (_ & _ & H). apply Forall_cons in H as [[H _] _]. congruence. }
      destruct (String.prefix "image/" (Multer.mimetype f)) eqn:Hm.
      2:{ split; [discriminate |].
          intros (_ & _ & H). apply Forall_cons in H as [[_ H] _]. congruence. }
      destruct (Multer.accept "images" n n rest) as [err | fs'] eqn:E.
      * split; [discriminate |]. intros (_ & Hl & H).
        apply Forall_cons in H as [_ H].
        assert (Multer.accept "images" n n rest = inr rest) as E'
            by (apply IH; repeat split; [lia | assumption]).
        congruence.
      * apply IH in E as (-> & Hl & Hall). split.
        -- intros [= <-]. repeat split; [lia |].
           constructor; [now split | assumption].
        -- intros (-> & _). reflexivity.
Qed.

(** X10. The handler is given exactly the bodies of at most 20 parts, all in
    the field [images] and all of an image type, and it is given them
    unchanged and in order. *)
Theorem upload_passes_images_only (parts fs : list Multer.File) :
  upload "images" 20 (Some parts) = inr (Some fs)
  <-> fs = parts /\ (List.length parts <= 20)%nat /\ Forall image_part parts.
Proof.
  unfold upload, Multer.array. rewrite <- accept_inr_iff.
  destruct (Multer.accept "images" 20 20 parts) as [err | fs'];
    split; intros H; try discriminate; congruence.
Qed.

Lemma accept_refuses (pre post : list Multer.File) (bad : Multer.File) :
  Multer.fieldname bad = "images" ->
  String.prefix "image/" (Multer.mimetype bad) = false ->
  Forall image_part pre ->
  forall n m,
    (List.length pre < n)%nat -> (List.length pre < m)%nat ->
    Multer.accept "images" n m (pre ++ bad :: post)%list
    = inl (Multer.FilterError "Only image files are allowed").
Proof.
  intros Hname Hmime. induction pre as [| f pre IH]; intros Hall n m Hn Hm.
  - destruct n as [| n]; [cbn in Hn; lia |]. destruct m as [| m]; [cbn in Hm; lia |].
    cbn [app Multer.accept]. rewrite Hname, String.eqb_refl.
    unfold Multer.fileFilter. now rewrite Hmime.
  - apply Forall_cons in Hall as [[Hf1 Hf2] Hall].
    destruct n as [| n]; [cbn in Hn; lia |]. destruct m as [| m]; [cbn in Hm; lia |].
    cbn [app Multer.accept]. rewrite Hf1, String.eqb_refl.
    unfold Multer.fileFilter at 1. rewrite Hf2.
    rewrite IH; [reflexivity | assumption | cbn in Hn; lia | cbn in Hm; lia].
Qed.

(** X11. A file of the field [images] that is not of an image type, among the
    first 20 and after images only, has the whole request answered 400
    "Only image files are allowed", whatever the query and the other files;
    nothing is converted. *)
Theorem non_image_refused (W : World) (q : Query)
    (pre post : list Multer.File) (bad : Multer.File) :
  Multer.fieldname bad = "images" ->
  String.prefix "image/" (Multer.mimetype bad) = false ->
  Forall image_part pre ->
  (List.length pre < 20)%nat ->
  post_upload W q (Some (pre ++ bad :: post)%list)
  = (respond 400 (error_body "Only image files are allowed"), []).
Proof.
  intros Hname Hmime Hall Hlen. unfold post_upload, upload, Multer.array.
  now rewrite (accept_refuses pre post bad Hname Hmime Hall 20 20 Hlen Hlen).
Qed.

Lemma non_image_refused_witness :
  post_upload Sample.world
    {| q_width := Some "abc"; q_height := None; q_quality := Some "0";
       q_maintainAspectRatio := None |}
    (Some ([Sample.png "a"]
           ++ {| Multer.fieldname := "images";
                 Multer.originalname := "notes.txt";
                 Multer.mimetype := "text/plain";
                 Multer.path := "/srv/uploads/notes" |}
           :: [Sample.png "b"])%list)
  = (respond 400 (error_body "Only image files are allowed"), []).
Proof.
  apply (non_image_refused Sample.world); try reflexivity.
  - constructor; [split; reflexivity | constructor].
  - cbn. lia.
Defined.

(** ** Output names *)

Lemma outputFilename_parts (W : World) (i : nat) :
  outputFilename W i
  = (toString (Date_now W i) ++ "-" ++ toString (random_suffix W i) ++ ".webp")%string.
Proof. reflexivity. Qed.

(** X12. [Math.round(Math.random() * 1e5)], for a draw in [0, 1), is an
    integer from 0 to 100000: the part of an output name after the dash
    has at most six digits. *)
Theorem random_suffix_range (W : World) (i : nat) :
  (0 <= Math_random W i)%Q -> (Math_random W i < 1)%Q ->
  0 <= random_suffix W i <= 100000.
Proof.
  intros H0 H1. unfold random_suffix, fmul.
  set (x := (Math_random W i * inject_Z 100000)%Q).
  assert (Hx0 : (0 <= x)%Q).
  { unfold x. apply Qmult_le_0_compat; [assumption | discriminate]. }
  assert (Hx1 : (x < 100000)%Q).
  { unfold x. change (inject_Z 100000) with 100000%Q. lra. }
  destruct (Qlt_le_dec 0 x) as [Hpos | Hle].
  - destruct (fl_err x Hpos) as [E1 E2]. rewrite u_value in E1, E2.
    split.
    + apply Math_round_nonneg. lra.
    + apply Math_round_le. change (inject_Z 100000) with 100000%Q. lra.
  - assert (E : (x == 0)%Q) by (apply Qle_antisym; assumption).
    unfold fl. apply Qeq_alt in E. rewrite E.
    change (0 <= Math_round 0 <= 100000). vm_compute. split; discriminate.
Qed.

Lemma random_suffix_range_witness :
  0 <= random_suffix Sample.world 0 <= 100000.
Proof.
  apply (random_suffix_range Sample.world 0); cbn; [discriminate | reflexivity].
Defined.

Lemma append_inv_head (s t t' : string) :
  (s ++ t)%string = (s ++ t')%string -> t = t'.
Proof.
  induction s as [| c s IH]; cbn [String.append]; intros H; [exact H |].
  injection H as H. now apply IH.
Qed.

Lemma name_parts_inj (a b a' b' : Z) :
  (toString a ++ "-" ++ toString b ++ ".webp")%string
  = (toString a' ++ "-" ++ toString b' ++ ".webp")%string ->
  a = a' /\ b = b'.
Proof.
  intros H.
  assert (Ha : a = a').
  { pose proof (f_equal parseInt H) as P.
    rewrite !parseInt_toString in P by reflexivity. now injection P. }
  subst a'. split; [reflexivity |].
  apply append_inv_head in H. cbn [String.append] in H. injection H as H.
  pose proof (f_equal parseInt H) as P.
  rewrite !parseInt_toString in P by reflexivity. now injection P.
Qed.

(** X13. Two files get the same output name, and so the same public URL,
    exactly when the clock and the rounded random draw both coincide at
    their turns. *)
Theorem output_names_collide_iff (W : World) (i j : nat) :
  (outputFilename W i = outputFilename W j
   <-> Date_now W i = Date_now W j /\ random_suffix W i = random_suffix W j)
  /\ (publicUrl (outputFilename W i) = publicUrl (outputFilename W j)
      <-> Date_now W i = Date_now W j /\ random_suffix W i = random_suffix W j).
Proof.
  assert (N : outputFilename W i = outputFilename W j
              <-> Date_now W i = Date_now W j
                  /\ random_suffix W i = random_suffix W j).
  { rewrite !outputFilename_parts. split.
    - apply name_parts_inj.
    - intros [-> ->]. reflexivity. }
  split; [exact N |]. rewrite <- N. unfold publicUrl. split.
  - apply append_inv_head.
  - intros ->. reflexivity.
Qed.

(** ** Parameter values that count as absent *)

(** X14. Only the exact string [true] turns [maintainAspectRatio] on, and
    an empty [width], [height] or [quality] is an absent one: the handler
    answers and converts as for the request without the parameter. *)
Theorem unrecognised_values_as_absent (W : World) (req : Request) (s : string) :
  s <> "true" ->
  handler W (set_maintainAspectRatio (Some s) req)
  = handler W (set_maintainAspectRatio None req)
  /\ handler W (set_width (Some "") req) = handler W (set_width None req)
  /\ handler W (set_height (Some "") req) = handler W (set_height None req)
  /\ handler W (set_quality (Some "") req) = handler W (set_quality None req).
Proof.
  intros Hs. split; [| repeat split].
  unfold handler, maintainAspectRatio_of, set_maintainAspectRatio.
  cbn [query files q_maintainAspectRatio].
  apply String.eqb_neq in Hs. now rewrite Hs.
Qed.

Lemma unrecognised_values_as_absent_witness :
  handler Sample.world
    (set_maintainAspectRatio (Some "TRUE")
       (Sample.request (Some "800") (Some "600") None None [Sample.png "a"]))
  = handler Sample.world
      (set_maintainAspectRatio None
         (Sample.request (Some "800") (Some "600") None None [Sample.png "a"]))
  /\ handler Sample.world
       (set_width (Some "") (Sample.request (Some "800") (Some "600") None None [Sample.png "a"]))
     = handler Sample.world
         (set_width None (Sample.request (Some "800") (Some "600") None None [Sample.png "a"]))
  /\ handler Sample.world
       (set_height (Some "") (Sample.request (Some "800") (Some "600") None None [Sample.png "a"]))
     = handler Sample.world
         (set_height None (Sample.request (Some "800") (Some "600") None None [Sample.png "a"]))
  /\ handler Sample.world
       (set_quality (Some "") (Sample.request (Some "800") (Some "600") None None [Sample.png "a"]))
     = handler Sample.world
         (set_quality None (Sample.request (Some "800") (Some "600") None None [Sample.png "a"])).
Proof.
  apply (unrecognised_values_as_absent Sample.world
           (Sample.request (Some "800") (Some "600") None None [Sample.png "a"])
           "TRUE").
  discriminate.
Defined.

(** ** One dimension given *)

Section OneDimension.

Local Open Scope Q_scope.

Lemma quotient_accuracy (R W : Q) :
  0 < R -> 1 <= W ->
  let x := fdiv W (fl R) in
  0 < x
  /\ Qabs (inject_Z (Math_round x) - W / R) <= (1 # 2) + 3 * u * (W / R).
Proof.
  intros HR HW x.
  destruct (fl_err R HR) as [Ha1 Ha2].
  pose proof (fl_positive R HR) as Har.
  set (ar := fl R) in *.
  assert (Hb : 0 < W / ar) by (apply Qlt_shift_div_l; lra).
  destruct (fl_err (W / ar) Hb) as [Hx1 Hx2].
  fold (fdiv W ar) in Hx1, Hx2. fold x in Hx1, Hx2.
  assert (Hd : 0 < W / R) by (apply Qlt_shift_div_l; lra).
  set (b := W / ar) in *. set (d := W / R) in *.
  assert (Eb : b * ar == W) by (unfold b; field; lra).
  assert (Ed : d * R == W) by (unfold d; field; lra).
  assert (B3 : b - b * u <= d).
  { apply Qmult_le_r with R; [assumption |]. rewrite Ed.
    assert (E : (b - b * u) * R == b * (R - R * u)) by ring.
    rewrite E, <- Eb. apply Qmult_le_l; lra. }
  assert (B4 : d <= b + b * u).
  { apply Qmult_le_r with R; [assumption |]. rewrite Ed.
    assert (E : (b + b * u) * R == b * (R + R * u)) by ring.
    rewrite E, <- Eb. apply Qmult_le_l; lra. }
  rewrite u_value in *.
  destruct (Math_round_bounds x) as [Hr1 Hr2].
  split; [lra |]. apply Qabs_case; intros _; lra.
Qed.

Lemma product_accuracy (R H : Q) :
  0 < R -> 1 <= H ->
  let x := fmul H (fl R) in
  0 < x
  /\ Qabs (inject_Z (Math_round x) - H * R) <= (1 # 2) + 3 * u * (H * R).
Proof.
  intros HR HH x.
  destruct (fl_err R HR) as [Ha1 Ha2].
  pose proof (fl_positive R HR) as Har.
  set (ar := fl R) in *.
  assert (Hprod : 0 < H * ar) by (apply Qmult_lt_0_compat; lra).
  destruct (fl_err (H * ar) Hprod) as [Hx1 Hx2].
  fold (fmul H ar) in Hx1, Hx2. fold x in Hx1, Hx2.
  assert (Hc : 0 < H * R) by (apply Qmult_lt_0_compat; lra).
  assert (E2 : H * (R - R * u) == H * R - H * R * u) by ring.
  assert (E3 : H * (R + R * u) == H * R + H * R * u) by ring.
  assert (B3 : H * (R - R * u) <= H * ar) by (apply Qmult_le_l; lra).
  assert (B4 : H * ar <= H * (R + R * u)) by (apply Qmult_le_l; lra).
  rewrite E2 in B3. rewrite E3 in B4.
  set (a := H * ar) in *. set (c := H * R) in *.
  rewrite u_value in *.
  destruct (Math_round_bounds x) as [Hr1 Hr2].
  split; [lra |]. apply Qabs_case; intros _; lra.
Qed.

End OneDimension.

(** X15. With [maintainAspectRatio] set and only a width, from 1 to 5000,
    the height of the plan is within half a pixel of the exact proportional
    height [width * originalHeight / originalWidth], up to a relative error
    of 3 * 2^-53 from the two divisions. *)
Theorem width_only_height_accuracy (originalWidth originalHeight : positive) (width : Z) :
  1 <= width <= 5000 ->
  exists targetHeight : Z,
    resizePlan true (Some (Int width)) None originalWidth originalHeight
    = (Some (Int width), Some (Int targetHeight))
    /\ 0 <= targetHeight
    /\ (Qabs (inject_Z targetHeight
              - inject_Z width / (inject_Z (Zpos originalWidth)
                                  / inject_Z (Zpos originalHeight)))
        <= (1 # 2)
           + 3 * u * (inject_Z width / (inject_Z (Zpos originalWidth)
                                        / inject_Z (Zpos originalHeight))))%Q.
Proof.
  intros Hw. destruct (inject_bounds width Hw) as [HW1 _].
  set (R := (inject_Z (Zpos originalWidth) / inject_Z (Zpos originalHeight))%Q).
  assert (HR : (0 < R)%Q).
  { apply Qlt_shift_div_l; [apply inject_pos |]. rewrite Qmult_0_l. apply inject_pos. }
  destruct (quotient_accuracy R (inject_Z width) HR HW1) as [Hx Hacc].
  exists (Math_round (fdiv (inject_Z width) (fl R))).
  split; [| split].
  - unfold resizePlan. rewrite (truthy_Int width) by lia. reflexivity.
  - apply Math_round_nonneg. lra.
  - exact Hacc.
Qed.

Lemma width_only_height_accuracy_witness :
  exists targetHeight : Z,
    resizePlan true (Some (Int 800)) None 1920 1080
    = (Some (Int 800), Some (Int targetHeight))
    /\ 0 <= targetHeight
    /\ (Qabs (inject_Z targetHeight
              - inject_Z 800%Z / (inject_Z 1920%Z / inject_Z 1080%Z))
        <= (1 # 2) + 3 * u * (inject_Z 800%Z / (inject_Z 1920%Z / inject_Z 1080%Z)))%Q.
Proof. apply (width_only_height_accuracy 1920 1080 800). lia. Defined.

(** X16. With [maintainAspectRatio] set and only a height, from 1 to 5000,
    the plan keeps the height and sets the width to
    [Math.round(height * aspectRatio)], which is within half a pixel of the
    exact proportional width [height * originalWidth / originalHeight], up
    to a relative error of 3 * 2^-53. *)
Theorem height_only_plan (originalWidth originalHeight : positive) (height : Z) :
  1 <= height <= 5000 ->
  let aspectRatio :=
    fdiv (inject_Z (Zpos originalWidth)) (inject_Z (Zpos originalHeight)) in
  let targetWidth := Math_round (fmul (inject_Z height) aspectRatio) in
  resizePlan true None (Some (Int height)) originalWidth originalHeight
  = (Some (Int targetWidth), Some (Int height))
  /\ 0 <= targetWidth
  /\ (Qabs (inject_Z targetWidth
            - inject_Z height * (inject_Z (Zpos originalWidth)
                                 / inject_Z (Zpos originalHeight)))
      <= (1 # 2)
         + 3 * u * (inject_Z height * (inject_Z (Zpos originalWidth)
                                       / inject_Z (Zpos originalHeight))))%Q.
Proof.
  intros Hh aspectRatio targetWidth. destruct (inject_bounds height Hh) as [HH1 _].
  set (R := (inject_Z (Zpos originalWidth) / inject_Z (Zpos originalHeight))%Q).
  assert (HR : (0 < R)%Q).
  { apply Qlt_shift_div_l; [apply inject_pos |]. rewrite Qmult_0_l. apply inject_pos. }
  destruct (product_accuracy R (inject_Z height) HR HH1) as [Hx Hacc].
  split; [| split].
  - unfold resizePlan. rewrite (truthy_Int height) by lia. reflexivity.
  - apply Math_round_nonneg. unfold targetWidth, aspectRatio, fdiv. fold R. lra.
  - exact Hacc.
Qed.

Lemma height_only_plan_witness :
  resizePlan true None (Some (Int 600)) 1920 1080
  = (Some (Int (Math_round (fmul (inject_Z 600) (fdiv (inject_Z 1920) (inject_Z 1080))))),
     Some (Int 600))
  /\ 0 <= Math_round (fmul (inject_Z 600) (fdiv (inject_Z 1920) (inject_Z 1080)))
  /\ (Qabs (inject_Z (Math_round (fmul (inject_Z 600%Z)
                                    (fdiv (inject_Z 1920%Z) (inject_Z 1080%Z))))
            - inject_Z 600%Z * (inject_Z 1920%Z / inject_Z 1080%Z))
      <= (1 # 2) + 3 * u * (inject_Z 600%Z * (inject_Z 1920%Z / inject_Z 1080%Z)))%Q.
Proof. apply (height_only_plan 1920 1080 600). lia. Defined.

(** ** Rounding does not depend on how a rational is written *)

Section Representation.

Local Open Scope Q_scope.

Lemma pow2_le (a b : Z) : (a <= b)%Z -> pow2 a <= pow2 b.
Proof. intros H. unfold pow2. apply Qpower_le_compat_l; [assumption | discriminate]. Qed.

Lemma ilog2_unique (x : Q) (k : Z) :
  0 < x -> pow2 k <= x -> x < pow2 (k + 1) -> ilog2 x = k.
Proof.
  intros Hx H1 H2.
  pose proof (ilog2_le x Hx) as L1. pose proof (ilog2_lt x Hx) as L2.
  destruct (Z.lt_trichotomy (ilog2 x) k) as [Hlt | [Heq | Hgt]]; [| exact Heq |].
  - exfalso. assert (H : pow2 (ilog2 x + 1) <= pow2 k) by (apply pow2_le; lia). lra.
  - exfalso. assert (H : pow2 (k + 1) <= pow2 (ilog2 x)) by (apply pow2_le; lia). lra.
Qed.

Lemma ilog2_comp (x y : Q) : 0 < x -> x == y -> ilog2 x = ilog2 y.
Proof.
  intros Hx E. symmetry. apply ilog2_unique.
  - now rewrite <- E.
  - rewrite <- E. now apply ilog2_le.
  - rewrite <- E. now apply ilog2_lt.
Qed.

Lemma round_half_even_comp (x y : Q) :
  x == y -> round_half_even x = round_half_even y.
Proof.
  intros E. unfold round_half_even.
  rewrite (Qfloor_comp x y E).
  assert (E' : x - inject_Z (Qfloor y) == y - inject_Z (Qfloor y)) by now rewrite E.
  now rewrite (Qcompare_comp _ _ E' (1 # 2) (1 # 2) (Qeq_refl _)).
Qed.

Lemma fl_pos_comp (x y : Q) : 0 < x -> x == y -> fl_pos x = fl_pos y.
Proof.
  intros Hx E. unfold fl_pos. rewrite (ilog2_comp x y Hx E).
  apply Qred_complete.
  assert (E' : x / pow2 (ilog2 y - (prec - 1)) == y / pow2 (ilog2 y - (prec - 1)))
    by now rewrite E.
  now rewrite (round_half_even_comp _ _ E').
Qed.

(** [fl] is a function of the rational, not of the fraction it is
    written as. *)
Lemma fl_comp (x y : Q) : x == y -> fl x = fl y.
Proof.
  intros E. unfold fl.
  rewrite (Qcompare_comp x y E 0 0 (Qeq_refl 0)).
  destruct (Qcompare y 0) eqn:C.
  - reflexivity.
  - apply Qlt_alt in C.
    assert (Hx : 0 < - x) by (rewrite E; lra).
    assert (E' : - x == - y) by now rewrite E.
    now rewrite (fl_pos_comp (- x) (- y) Hx E').
  - apply Qgt_alt in C. apply fl_pos_comp; [rewrite E; exact C | exact E].
Qed.

Lemma gt_irrefl (x : Q) : gt x x = false.
Proof.
  unfold gt. assert (E : Qcompare x x = Eq) by (apply Qeq_alt; reflexivity).
  now rewrite E.
Qed.

Lemma gt_true_intro (x y : Q) : y < x -> gt x y = true.
Proof. intros H. unfold gt. apply Qgt_alt in H. now rewrite H. Qed.

Lemma gt_false_intro (x y : Q) : x <= y -> gt x y = false.
Proof.
  intros H. destruct (gt x y) eqn:E; [| reflexivity].
  apply gt_true in E. lra.
Qed.

Lemma Math_round_eq (x : Q) (n : Z) :
  inject_Z n - (1 # 2) <= x -> x < inject_Z n + (1 # 2) -> Math_round x = n.
Proof.
  intros H1 H2. destruct (Math_round_bounds x) as [B1 B2].
  assert (A1 : inject_Z (Math_round x) < inject_Z (n + 1)).
  { rewrite inject_Z_plus. change (inject_Z 1) with 1. lra. }
  assert (A2 : inject_Z (n - 1) < inject_Z (Math_round x)).
  { unfold Z.sub. rewrite inject_Z_plus. change (inject_Z (- (1))) with (- (1)). lra. }
  rewrite <- Zlt_Qlt in A1, A2. lia.
Qed.

(** An integer from 1 to 5000 survives a rounding and [Math.round]. *)
Lemma Math_round_fl_int (x : Q) (n : Z) :
  (1 <= n <= 5000)%Z -> x == inject_Z n -> Math_round (fl x) = n.
Proof.
  intros Hn E. destruct (inject_bounds n Hn) as [N1 N2].
  rewrite (fl_comp x (inject_Z n) E).
  assert (Hp : 0 < inject_Z n) by lra.
  destruct (fl_err (inject_Z n) Hp) as [E1 E2]. rewrite u_value in E1, E2.
  apply Math_round_eq; lra.
Qed.

End Representation.

(** ** Boxes and images of the same proportions *)

(** X17. With [maintainAspectRatio] set, a bounding box that has exactly
    the proportions of the source image ([width * originalHeight] equal to
    [height * originalWidth]) is the plan: neither dimension is changed. *)
Theorem proportional_box_kept (originalWidth originalHeight : positive) (width height : Z) :
  1 <= width <= 5000 ->
  1 <= height <= 5000 ->
  width * Zpos originalHeight = height * Zpos originalWidth ->
  resizePlan true (Some (Int width)) (Some (Int height))
    originalWidth originalHeight
  = (Some (Int width), Some (Int height)).
Proof.
  intros Hw Hh Hprop.
  destruct (inject_bounds width Hw) as [HW1 HW2].
  destruct (inject_bounds height Hh) as [HH1 HH2].
  pose proof (inject_pos originalWidth) as Pow.
  pose proof (inject_pos originalHeight) as Poh.
  set (R := (inject_Z (Zpos originalWidth) / inject_Z (Zpos originalHeight))%Q).
  assert (HR : (0 < R)%Q).
  { apply Qlt_shift_div_l; [assumption |]. now rewrite Qmult_0_l. }
  assert (Eq1 : (inject_Z width * inject_Z (Zpos originalHeight)
                 == inject_Z height * inject_Z (Zpos originalWidth))%Q).
  { rewrite <- !inject_Z_mult. now rewrite Hprop. }
  assert (E : (inject_Z width / inject_Z height == R)%Q).
  { unfold R. apply Qmult_inj_r with (inject_Z height * inject_Z (Zpos originalHeight))%Q.
    - intros H0.
      assert (0 < inject_Z height * inject_Z (Zpos originalHeight))%Q
        by (apply Qmult_lt_0_compat; lra).
      lra.
    - transitivity (inject_Z width * inject_Z (Zpos originalHeight))%Q; [field; lra |].
      rewrite Eq1. field. lra. }
  assert (Ed : (inject_Z width / R == inject_Z height)%Q).
  { rewrite <- E. field. split; lra. }
  rewrite resizePlan_both by lia. cbv zeta.
  change (fdiv (inject_Z (Zpos originalWidth)) (inject_Z (Zpos originalHeight)))
    with (fl R).
  unfold fdiv at 1. rewrite (fl_comp _ _ E), gt_irrefl.
  f_equal. f_equal. f_equal.
  destruct (quotient_accuracy R (inject_Z width) HR HW1) as [_ Hacc].
  cbv zeta in Hacc. rewrite Ed, u_value in Hacc.
  set (t := Math_round (fdiv (inject_Z width) (fl R))) in *.
  assert (A : (Qabs (inject_Z t - inject_Z height) < 1)%Q) by lra.
  assert (A1 : (inject_Z t - inject_Z height < 1)%Q).
  { eapply Qle_lt_trans; [apply Qle_Qabs | exact A]. }
  assert (A2 : (inject_Z height - inject_Z t < 1)%Q).
  { eapply Qle_lt_trans; [| exact A].
    rewrite <- Qabs_opp. eapply Qle_trans; [| apply Qle_Qabs]. lra. }
  assert (B1 : (inject_Z t < inject_Z (height + 1))%Q).
  { rewrite inject_Z_plus. change (inject_Z 1) with 1%Q. lra. }
  assert (B2 : (inject_Z height < inject_Z (t + 1))%Q).
  { rewrite inject_Z_plus. change (inject_Z 1) with 1%Q. lra. }
  rewrite <- Zlt_Qlt in B1, B2. lia.
Qed.

Lemma proportional_box_kept_witness :
  resizePlan true (Some (Int 1280)) (Some (Int 720)) 1920 1080
  = (Some (Int 1280), Some (Int 720)).
Proof. apply (proportional_box_kept 1920 1080 1280 720); lia. Defined.

Lemma square_ratio (side : positive) :
  fdiv (inject_Z (Zpos side)) (inject_Z (Zpos side)) = 1%Q.
Proof.
  pose proof (inject_pos side) as P.
  assert (E : (inject_Z (Zpos side) / inject_Z (Zpos side) == 1)%Q) by (field; lra).
  unfold fdiv. rewrite (fl_comp _ _ E). vm_compute. reflexivity.
Qed.

(** X18. With [maintainAspectRatio] set, a square image gets a square
    plan: the smaller side of the bounding box when both dimensions are
    given, the given dimension when only one is. *)
Theorem square_image_plan (side : positive) (width height : Z) :
  1 <= width <= 5000 ->
  1 <= height <= 5000 ->
  resizePlan true (Some (Int width)) (Some (Int height)) side side
  = (Some (Int (Z.min width height)), Some (Int (Z.min width height)))
  /\ resizePlan true (Some (Int width)) None side side
     = (Some (Int width), Some (Int width))
  /\ resizePlan true None (Some (Int height)) side side
     = (Some (Int height), Some (Int height)).
Proof.
  intros Hw Hh.
  destruct (inject_bounds width Hw) as [HW1 HW2].
  destruct (inject_bounds height Hh) as [HH1 HH2].
  assert (Rw : Math_round (fdiv (inject_Z width) 1) = width).
  { unfold fdiv. apply Math_round_fl_int; [assumption | field]. }
  assert (Rh : Math_round (fmul (inject_Z height) 1) = height).
  { unfold fmul. apply Math_round_fl_int; [assumption | ring]. }
  split; [| split].
  - rewrite resizePlan_both by lia. cbv zeta. rewrite square_ratio.
    assert (Hq : (0 < inject_Z width / inject_Z height)%Q)
      by (apply Qlt_shift_div_l; lra).
    destruct (fl_err _ Hq) as [E1 E2]. rewrite u_value in E1, E2.
    destruct (Z.lt_trichotomy width height) as [Hlt | [Heq | Hgt]].
    + assert (Hle : (inject_Z width <= inject_Z (height - 1))%Q)
        by (rewrite <- Zle_Qle; lia).
      unfold Z.sub in Hle. rewrite inject_Z_plus in Hle.
      change (inject_Z (- (1))) with (- (1))%Q in Hle.
      assert (Hb : (inject_Z width / inject_Z height <= 1 - (1 # 5000))%Q)
        by (apply Qle_shift_div_r; lra).
      rewrite gt_false_intro by (unfold fdiv; lra).
      rewrite Rw. now rewrite Z.min_l by lia.
    + subst height.
      assert (E : (inject_Z width / inject_Z width == 1)%Q) by (field; lra).
      unfold fdiv at 1. rewrite (fl_comp _ _ E).
      change (fl 1) with (fl (inject_Z 1)).
      assert (F : fl (inject_Z 1) = 1%Q) by (vm_compute; reflexivity).
      rewrite F, gt_irrefl, Rw. now rewrite Z.min_id.
    + assert (Hle : (inject_Z (height + 1) <= inject_Z width)%Q)
        by (rewrite <- Zle_Qle; lia).
      rewrite inject_Z_plus in Hle. change (inject_Z 1) with 1%Q in Hle.
      assert (Hb : (1 + (1 # 5000) <= inject_Z width / inject_Z height)%Q)
        by (apply Qle_shift_div_l; lra).
      rewrite gt_true_intro by (unfold fdiv; lra).
      rewrite Rh. now rewrite Z.min_r by lia.
  - unfold resizePlan. rewrite (truthy_Int width) by lia. cbn [truthy].
    now rewrite square_ratio, Rw.
  - unfold resizePlan. rewrite (truthy_Int height) by lia. cbn [truthy].
    now rewrite square_ratio, Rh.
Qed.

Lemma square_image_plan_witness :
  resizePlan true (Some (Int 800)) (Some (Int 600)) 512 512
  = (Some (Int (Z.min 800 600)), Some (Int (Z.min 800 600)))
  /\ resizePlan true (Some (Int 800)) None 512 512
     = (Some (Int 800), Some (Int 800))
  /\ resizePlan true None (Some (Int 600)) 512 512
     = (Some (Int 600), Some (Int 600)).
Proof. apply (square_image_plan 512 800 600); lia. Defined.

(** ** The plan against the rounding of the specification *)

Section AgainstExact.

Local Open Scope Q_scope.

Lemma Math_round_nearest (x : Q) : nearest (Math_round x) x.
Proof.
  unfold nearest. destruct (Math_round_bounds x) as [B1 B2]. split; lra.
Qed.

Lemma nearest_unique (t n : Z) (x : Q) : nearest t x -> nearest n x -> t = n.
Proof.
  unfold nearest. intros [T1 T2] [N1 N2].
  assert (A1 : inject_Z t < inject_Z (n + 1)).
  { rewrite inject_Z_plus. change (inject_Z 1) with 1. lra. }
  assert (A2 : inject_Z n < inject_Z (t + 1)).
  { rewrite inject_Z_plus. change (inject_Z 1) with 1. lra. }
  rewrite <- Zlt_Qlt in A1, A2. lia.
Qed.

Lemma spec_round_nearest (x : Q) : 0 <= x -> nearest (spec_round x) x.
Proof.
  intros Hx. unfold spec_round.
  assert (E : Qle_bool 0 x = true) by now apply Qle_bool_iff.
  rewrite E. apply (Math_round_nearest x).
Qed.

(** The handler's quotient and product are the exact ones up to a relative
    error of 3 [u]. *)
Lemma quotient_close (R W : Q) :
  0 < R -> 1 <= W ->
  Qabs (fdiv W (fl R) - W / R) <= 3 * u * (W / R).
Proof.
  intros HR HW.
  destruct (fl_err R HR) as [Ha1 Ha2].
  pose proof (fl_positive R HR) as Har.
  set (ar := fl R) in *.
  assert (Hb : 0 < W / ar) by (apply Qlt_shift_div_l; lra).
  destruct (fl_err (W / ar) Hb) as [Hx1 Hx2].
  fold (fdiv W ar) in Hx1, Hx2.
  assert (Hd : 0 < W / R) by (apply Qlt_shift_div_l; lra).
  set (b := W / ar) in *. set (d := W / R) in *.
  assert (Eb : b * ar == W) by (unfold b; field; lra).
  assert (Ed : d * R == W) by (unfold d; field; lra).
  assert (B3 : b - b * u <= d).
  { apply Qmult_le_r with R; [assumption |]. rewrite Ed.
    assert (E : (b - b * u) * R == b * (R - R * u)) by ring.
    rewrite E, <- Eb. apply Qmult_le_l; lra. }
  assert (B4 : d <= b + b * u).
  { apply Qmult_le_r with R; [assumption |]. rewrite Ed.
    assert (E : (b + b * u) * R == b * (R + R * u)) by ring.
    rewrite E, <- Eb. apply Qmult_le_l; lra. }
  rewrite u_value in *.
  apply Qabs_case; intros _; lra.
Qed.

Lemma product_close (R H : Q) :
  0 < R -> 1 <= H ->
  Qabs (fmul H (fl R) - H * R) <= 3 * u * (H * R).
Proof.
  intros HR HH.
  destruct (fl_err R HR) as [Ha1 Ha2].
  pose proof (fl_positive R HR) as Har.
  set (ar := fl R) in *.
  assert (Hprod : 0 < H * ar) by (apply Qmult_lt_0_compat; lra).
  destruct (fl_err (H * ar) Hprod) as [Hx1 Hx2].
  fold (fmul H ar) in Hx1, Hx2.
  assert (Hc : 0 < H * R) by (apply Qmult_lt_0_compat; lra).
  assert (E2 : H * (R - R * u) == H * R - H * R * u) by ring.
  assert (E3 : H * (R + R * u) == H * R + H * R * u) by ring.
  assert (B3 : H * (R - R * u) <= H * ar) by (apply Qmult_le_l; lra).
  assert (B4 : H * ar <= H * (R + R * u)) by (apply Qmult_le_l; lra).
  rewrite E2 in B3. rewrite E3 in B4.
  set (a := H * ar) in *. set (c := H * R) in *.
  rewrite u_value in *.
  apply Qabs_case; intros _; lra.
Qed.

(** What [Math.round] makes of a value [x] that is the exact value [d] up
    to a relative error of 3 [u]: the integer nearest to [x]; within a half
    and that error of [d]; and the rounding of the specification, unless [d]
    is that close to a tie. *)
Lemma rounded_near_exact (x d : Q) :
  0 < d ->
  Qabs (x - d) <= 3 * u * d ->
  nearest (Math_round x) x
  /\ Qabs (inject_Z (Math_round x) - d) <= (1 # 2) + 3 * u * d
  /\ (clear_of_tie d (spec_round d) (3 * u * d) -> Math_round x = spec_round d).
Proof.
  intros Hd Hclose.
  pose proof (Math_round_nearest x) as Hn.
  assert (C1 : x - d <= 3 * u * d)
    by (eapply Qle_trans; [apply Qle_Qabs | exact Hclose]).
  assert (C2 : d - x <= 3 * u * d).
  { eapply Qle_trans; [| exact Hclose]. rewrite <- Qabs_opp.
    eapply Qle_trans; [| apply Qle_Qabs]. lra. }
  split; [exact Hn | split].
  - destruct Hn as [N1 N2]. apply Qabs_case; intros _; lra.
  - intros [T1 T2]. apply (nearest_unique _ _ x Hn).
    unfold nearest. split; lra.
Qed.

End AgainstExact.

(** C4, as the specification words it, fails: for a 112 x 100 image asked
    at width 14 the exact height is 12.5, which rounds to 13, and the
    handler plans 12. *)
Lemma C4_round_of_exact_quotient_fails :
  resizePlan true (Some (Int 14)) None 112 100 = (Some (Int 14), Some (Int 12))
  /\ spec_height_for_width 14 112 100 = 13
  /\ resizePlan true (Some (Int 14)) None 112 100
     <> (Some (Int 14), Some (Int (spec_height_for_width 14 112 100))).
Proof.
  split; [| split]; try (vm_compute; reflexivity).
  intros H. vm_compute in H. discriminate H.
Qed.

(** C4, amended. With [maintainAspectRatio] set, a width in 1..5000 and no
    height, the plan keeps the width; its height is the integer nearest to
    the handler's binary64 quotient [width / aspectRatio] (the larger one at
    a tie), lies within a half plus a relative 3 * 2^-53 of the exact
    [width / (originalWidth / originalHeight)], and is the rounding of that
    exact quotient whenever the quotient is farther than this relative
    error from a tie. *)
Theorem C4_width_only_plan_near_exact
    (originalWidth originalHeight : positive) (width : Z) :
  1 <= width <= 5000 ->
  let aspectRatio :=
    fdiv (inject_Z (Zpos originalWidth)) (inject_Z (Zpos originalHeight)) in
  let exact :=
    (inject_Z width
     / (inject_Z (Zpos originalWidth) / inject_Z (Zpos originalHeight)))%Q in
  exists targetHeight : Z,
    resizePlan true (Some (Int width)) None originalWidth originalHeight
    = (Some (Int width), Some (Int targetHeight))
    /\ nearest targetHeight (fdiv (inject_Z width) aspectRatio)
    /\ (Qabs (inject_Z targetHeight - exact) <= (1 # 2) + 3 * u * exact)%Q
    /\ (clear_of_tie exact
          (spec_height_for_width width originalWidth originalHeight)
          (3 * u * exact)
        -> targetHeight
           = spec_height_for_width width originalWidth originalHeight).
Proof.
  intros Hw. cbv zeta.
  destruct (inject_bounds width Hw) as [HW1 _].
  set (R := (inject_Z (Zpos originalWidth) / inject_Z (Zpos originalHeight))%Q).
  assert (HR : (0 < R)%Q).
  { apply Qlt_shift_div_l; [apply inject_pos |]. rewrite Qmult_0_l. apply inject_pos. }
  assert (Hd : (0 < inject_Z width / R)%Q) by (apply Qlt_shift_div_l; lra).
  pose proof (quotient_close R (inject_Z width) HR HW1) as Hclose.
  destruct (rounded_near_exact _ _ Hd Hclose) as (N & A & T).
  exists (Math_round (fdiv (inject_Z width) (fl R))).
  split; [| split; [| split]].
  - unfold resizePlan. rewrite (truthy_Int width) by lia. reflexivity.
  - exact N.
  - exact A.
  - exact T.
Qed.

Lemma C4_width_only_plan_near_exact_witness :
  exists targetHeight : Z,
    resizePlan true (Some (Int 800)) None 1920 1080
    = (Some (Int 800), Some (Int targetHeight))
    /\ nearest targetHeight
         (fdiv (inject_Z 800) (fdiv (inject_Z 1920) (inject_Z 1080)))
    /\ (Qabs (inject_Z targetHeight
              - inject_Z 800%Z / (inject_Z 1920%Z / inject_Z 1080%Z))
        <= (1 # 2) + 3 * u * (inject_Z 800%Z / (inject_Z 1920%Z / inject_Z 1080%Z)))%Q
    /\ (clear_of_tie (inject_Z 800%Z / (inject_Z 1920%Z / inject_Z 1080%Z))%Q
          (spec_height_for_width 800 1920 1080)
          (3 * u * (inject_Z 800%Z / (inject_Z 1920%Z / inject_Z 1080%Z)))%Q
        -> targetHeight = spec_height_for_width 800 1920 1080).
Proof. apply (C4_width_only_plan_near_exact 1920 1080 800). lia. Defined.

(** C10, as the specification words it, fails: for a 112 x 100 image in a
    14 x 5000 box the plan is (14, 12); the height is not kept, and the
    rounding of the exact height 12.5 is 13. *)
Lemma C10_round_of_exact_value_fails :
  resizePlan true (Some (Int 14)) (Some (Int 5000)) 112 100
  = (Some (Int 14), Some (Int 12))
  /\ ~ (resizePlan true (Some (Int 14)) (Some (Int 5000)) 112 100
        = (Some (Int (spec_width_for_height 5000 112 100)), Some (Int 5000))
        \/ resizePlan true (Some (Int 14)) (Some (Int 5000)) 112 100
           = (Some (Int 14), Some (Int (spec_height_for_width 14 112 100)))).
Proof.
  split; [vm_compute; reflexivity |].
  intros [H | H]; vm_compute in H; discriminate H.
Qed.

(** C10, amended. With [maintainAspectRatio] set and both dimensions given
    and positive, the plan keeps one of them.  When
    [width / height > aspectRatio] it keeps the height, and the width is the
    integer nearest to the handler's binary64 product
    [height * aspectRatio]; otherwise it keeps the width, and the height is
    the integer nearest to the binary64 quotient [width / aspectRatio].  The
    recomputed dimension lies within a half plus a relative 3 * 2^-53 of the
    exact proportional value, and is the rounding of that exact value
    whenever the value is farther than this relative error from a tie. *)
Theorem C10_one_dimension_kept_near_exact
    (originalWidth originalHeight : positive) (width height : Z) :
  0 < width ->
  0 < height ->
  let ratio :=
    (inject_Z (Zpos originalWidth) / inject_Z (Zpos originalHeight))%Q in
  let aspectRatio :=
    fdiv (inject_Z (Zpos originalWidth)) (inject_Z (Zpos originalHeight)) in
  let exactWidth := (inject_Z height * ratio)%Q in
  let exactHeight := (inject_Z width / ratio)%Q in
  exists targetWidth targetHeight : Z,
    resizePlan true (Some (Int width)) (Some (Int height))
      originalWidth originalHeight
    = (Some (Int targetWidth), Some (Int targetHeight))
    /\ ((gt (fdiv (inject_Z width) (inject_Z height)) aspectRatio = true
         /\ targetHeight = height
         /\ nearest targetWidth (fmul (inject_Z height) aspectRatio)
         /\ (Qabs (inject_Z targetWidth - exactWidth)
             <= (1 # 2) + 3 * u * exactWidth)%Q
         /\ (clear_of_tie exactWidth
               (spec_width_for_height height originalWidth originalHeight)
               (3 * u * exactWidth)
             -> targetWidth
                = spec_width_for_height height originalWidth originalHeight))
        \/
        (gt (fdiv (inject_Z width) (inject_Z height)) aspectRatio = false
         /\ targetWidth = width
         /\ nearest targetHeight (fdiv (inject_Z width) aspectRatio)
         /\ (Qabs (inject_Z targetHeight - exactHeight)
             <= (1 # 2) + 3 * u * exactHeight)%Q
         /\ (clear_of_tie exactHeight
               (spec_height_for_width width originalWidth originalHeight)
               (3 * u * exactHeight)
             -> targetHeight
                = spec_height_for_width width originalWidth originalHeight))).
Proof.
  intros Hw Hh. cbv zeta.
  assert (HW1 : (1 <= inject_Z width)%Q)
    by (change 1%Q with (inject_Z 1); rewrite <- Zle_Qle; lia).
  assert (HH1 : (1 <= inject_Z height)%Q)
    by (change 1%Q with (inject_Z 1); rewrite <- Zle_Qle; lia).
  set (R := (inject_Z (Zpos originalWidth) / inject_Z (Zpos originalHeight))%Q).
  assert (HR : (0 < R)%Q).
  { apply Qlt_shift_div_l; [apply inject_pos |]. rewrite Qmult_0_l. apply inject_pos. }
  rewrite resizePlan_both by lia. cbv zeta.
  change (fdiv (inject_Z (Zpos originalWidth)) (inject_Z (Zpos originalHeight)))
    with (fl R).
  destruct (gt (fdiv (inject_Z width) (inject_Z height)) (fl R)) eqn:E.
  - assert (Hd : (0 < inject_Z height * R)%Q) by (apply Qmult_lt_0_compat; lra).
    pose proof (product_close R (inject_Z height) HR HH1) as Hclose.
    destruct (rounded_near_exact _ _ Hd Hclose) as (N & A & T).
    exists (Math_round (fmul (inject_Z height) (fl R))), height.
    split; [reflexivity |]. left.
    split; [reflexivity |]. split; [reflexivity |].
    split; [exact N |]. split; [exact A | exact T].
  - assert (Hd : (0 < inject_Z width / R)%Q) by (apply Qlt_shift_div_l; lra).
    pose proof (quotient_close R (inject_Z width) HR HW1) as Hclose.
    destruct (rounded_near_exact _ _ Hd Hclose) as (N & A & T).
    exists width, (Math_round (fdiv (inject_Z width) (fl R))).
    split; [reflexivity |]. right.
    split; [reflexivity |]. split; [reflexivity |].
    split; [exact N |]. split; [exact A | exact T].
Qed.

Lemma C10_one_dimension_kept_near_exact_witness :
  exists targetWidth targetHeight : Z,
    resizePlan true (Some (Int 800)) (Some (Int 600)) 1920 1080
    = (Some (Int targetWidth), Some (Int targetHeight))
    /\ ((gt (fdiv (inject_Z 800) (inject_Z 600))
            (fdiv (inject_Z 1920) (inject_Z 1080)) = true
         /\ targetHeight = 600
         /\ nearest targetWidth
              (fmul (inject_Z 600) (fdiv (inject_Z 1920) (inject_Z 1080)))
         /\ (Qabs (inject_Z targetWidth
                   - inject_Z 600%Z * (inject_Z 1920%Z / inject_Z 1080%Z))
             <= (1 # 2)
                + 3 * u * (inject_Z 600%Z * (inject_Z 1920%Z / inject_Z 1080%Z)))%Q
         /\ (clear_of_tie (inject_Z 600%Z * (inject_Z 1920%Z / inject_Z 1080%Z))%Q
               (spec_width_for_height 600 1920 1080)
               (3 * u * (inject_Z 600%Z * (inject_Z 1920%Z / inject_Z 1080%Z)))%Q
             -> targetWidth = spec_width_for_height 600 1920 1080))
        \/
        (gt (fdiv (inject_Z 800) (inject_Z 600))
            (fdiv (inject_Z 1920) (inject_Z 1080)) = false
         /\ targetWidth = 800
         /\ nearest targetHeight
              (fdiv (inject_Z 800) (fdiv (inject_Z 1920) (inject_Z 1080)))
         /\ (Qabs (inject_Z targetHeight
                   - inject_Z 800%Z / (inject_Z 1920%Z / inject_Z 1080%Z))
             <= (1 # 2)
                + 3 * u * (inject_Z 800%Z / (inject_Z 1920%Z / inject_Z 1080%Z)))%Q
         /\ (clear_of_tie (inject_Z 800%Z / (inject_Z 1920%Z / inject_Z 1080%Z))%Q
               (spec_height_for_width 800 1920 1080)
               (3 * u * (inject_Z 800%Z / (inject_Z 1920%Z / inject_Z 1080%Z)))%Q
             -> targetHeight = spec_height_for_width 800 1920 1080))).
Proof. apply (C10_one_dimension_kept_near_exact 1920 1080 800 600); lia. Defined.
